(** * Verification model of ai-file-organizer

    Shallow embedding of the reorganization engine
    (src/src/folder_reorganizer.py) and of the analysis pipeline
    (src/src/file_analyzer.py, src/src/file_processor.py). *)

From Stdlib Require Import String Ascii List Bool Arith Lia ZArith.
From Stdlib Require Import Floats Permutation.
Import ListNotations.
Open Scope string_scope.
Open Scope list_scope.
(* Python float literals such as 0.7 denote the nearest binary64 value. *)
Set Warnings "-inexact-float,-register-all".

(** ** Paths

    A [pathlib.Path] is modelled as its list of components, the root being
    the empty list: [/src/a.txt] is [["src"; "a.txt"]].  [base / cat] appends
    one component. *)

Definition path := list string.

Definition path_eq_dec : forall p q : path, {p = q} + {p <> q} :=
  list_eq_dec string_dec.

Definition path_eqb (p q : path) : bool :=
  if path_eq_dec p q then true else false.

(** [PurePath.name]: the last component ([""] for the root). *)
Definition name (p : path) : string := last p "".

(** [PurePath.parent]. *)
Definition parent (p : path) : path := removelast p.

Definition join (p : path) (c : string) : path := p ++ [c].

(** [str.rfind(".")], [None] standing for [-1]. *)
Fixpoint rfind_dot_from (s : string) (i : nat) (acc : option nat) : option nat :=
  match s with
  | EmptyString => acc
  | String c s' =>
      rfind_dot_from s' (S i) (if Ascii.eqb c "."%char then Some i else acc)
  end.

Definition rfind_dot (s : string) : option nat := rfind_dot_from s 0 None.

(** [PurePath.suffix]:
    [i = name.rfind('.'); return name[i:] if 0 < i < len(name) - 1 else ''] *)
Definition suffix (p : path) : string :=
  let nm := name p in
  match rfind_dot nm with
  | Some i =>
      if ((0 <? i) && (i <? String.length nm - 1))%nat
      then substring i (String.length nm - i)%nat nm
      else ""
  | None => ""
  end.

(** Python's [s[1:]]. *)
Definition drop1 (s : string) : string := substring 1 (String.length s - 1)%nat s.

(** ** The file system

    Regular files with their contents, and directories, each in the order in
    which the operating system lists them. *)

Record FS := mkFS {
  fs_files : list (path * string);
  fs_dirs : list path
}.

Fixpoint assoc_get {V} (k : path) (l : list (path * V)) : option V :=
  match l with
  | [] => None
  | (k', v) :: l' => if path_eqb k k' then Some v else assoc_get k l'
  end.

(** Python's [d[k] = v] on a dict: replaced in place when [k] is a key,
    appended at the end otherwise. *)
Fixpoint assoc_set {V} (k : path) (v : V) (l : list (path * V)) : list (path * V) :=
  match l with
  | [] => [(k, v)]
  | (k', v') :: l' =>
      if path_eqb k k' then (k', v) :: l' else (k', v') :: assoc_set k v l'
  end.

Definition assoc_del {V} (k : path) (l : list (path * V)) : list (path * V) :=
  filter (fun kv => negb (path_eqb k (fst kv))) l.

Definition file_at (fs : FS) (p : path) : option string := assoc_get p (fs_files fs).

Definition is_file (fs : FS) (p : path) : bool :=
  match file_at fs p with Some _ => true | None => false end.

Definition is_dir (fs : FS) (p : path) : bool := existsb (path_eqb p) (fs_dirs fs).

Definition exists_path (fs : FS) (p : path) : bool := is_file fs p || is_dir fs p.

(** ** Exceptions and the state/exception monad

    A Python method that mutates the object and the file system and may
    raise: the state reached when the exception is raised is kept. *)

Inductive exn : Type :=
| FileNotFoundError (p : path)
| FileExistsError (p : path)
| IsADirectoryError (p : path)
| ShutilError (p : path)   (* shutil.Error: the destination exists, or lies inside the source *)
| DirNotEmpty (p : path).

(** [FolderReorganizer]'s fields.  A rule of [hierarchy_rules] is a JSON
    object; only its keys ["extensions"] and ["category"] are read. *)
Record Rule := mkRule {
  rule_extensions : option (list string);   (* rule.get('extensions') *)
  rule_category : option string             (* rule.get('category') *)
}.

(** The part of the loaded configuration that the code reads.
    ([classification_weights] is required at load time but never read.) *)
Record Config := mkConfig {
  hierarchy_rules : list Rule
}.

Record St := mkSt {
  config : Config;
  previous_state : list (path * path);   (* self._previous_state *)
  fs : FS;
  stdout : list string                   (* print output *)
}.

Inductive outcome (A : Type) : Type :=
| Ret (s : St) (a : A)
| Raise (s : St) (e : exn).
Arguments Ret {A} s a.
Arguments Raise {A} s e.

Definition M (A : Type) : Type := St -> outcome A.

Definition ret {A} (a : A) : M A := fun s => Ret s a.

Definition bind {A B} (m : M A) (k : A -> M B) : M B :=
  fun s => match m s with
           | Ret s' a => k a s'
           | Raise s' e => Raise s' e
           end.

Definition raise {A} (e : exn) : M A := fun s => Raise s e.
Definition get : M St := fun s => Ret s s.

Notation "x <- m ;; k" := (bind m (fun x => k))
  (at level 61, m at next level, right associativity).
Notation "m ;;; k" := (bind m (fun _ => k))
  (at level 61, right associativity).

Definition modify_fs (f : FS -> FS) : M unit :=
  fun s => Ret (mkSt (config s) (previous_state s) (f (fs s)) (stdout s)) tt.

Definition set_prev (l : list (path * path)) : M unit :=
  fun s => Ret (mkSt (config s) l (fs s) (stdout s)) tt.

Definition print (msg : string) : M unit :=
  fun s => Ret (mkSt (config s) (previous_state s) (fs s) (stdout s ++ [msg])) tt.

Fixpoint for_each {A} (l : list A) (body : A -> M unit) : M unit :=
  match l with
  | [] => ret tt
  | x :: l' => body x ;;; for_each l' body
  end.

(** ** File-system primitives *)

(** The non-root prefixes of [p], [p] itself included, shortest first: the directories
    [mkdir(parents=True)] may create. *)
Definition ancestors (p : path) : list path :=
  map (fun k => firstn k p) (seq 1 (length p)).

(** [q] is [pre] or lies below it. *)
Definition is_prefix (pre q : path) : bool := path_eqb (firstn (length pre) q) pre.

(** The regular files and directories of the tree at [src] carried to
    [dst]; the missing directories above [dst] are created, as
    [copytree]'s [makedirs] does when the parent of [dst] is missing. *)
Definition move_tree (src dst : path) (f : FS) : FS :=
  let remap q := dst ++ skipn (length src) q in
  mkFS (map (fun kv => if is_prefix src (fst kv) then (remap (fst kv), snd kv) else kv)
            (fs_files f))
       (filter (fun q => negb (is_prefix src q)) (fs_dirs f)
        ++ filter (fun q => negb (is_dir f q)) (removelast (ancestors dst))
        ++ map remap (filter (is_prefix src) (fs_dirs f))).

(** [os.rename(src, real_dst)] inside [shutil.move], with the fallback
    [shutil.move] takes when it raises [OSError].  [shutil.move] never
    passes an existing directory as [dst] unless it is [src] itself.
    - a path renamed to itself: nothing happens, if it exists;
    - a regular file: replaces a file at [dst]; the parent of [dst] must be
      a directory, otherwise [os.rename] and the fallback [copy2] both
      raise;
    - a directory: [dst] inside [src] gives [shutil.Error] ("Cannot move a
      directory into itself"); an existing [dst], or a regular file among
      the directories above it, makes the fallback's [makedirs] raise;
      otherwise the whole tree is moved. *)
Definition rename (src dst : path) : M unit :=
  s <- get ;;
  if path_eqb src dst then
    (if exists_path (fs s) src then ret tt else raise (FileNotFoundError src))
  else match file_at (fs s) src with
  | Some c =>
      if negb (is_dir (fs s) (parent dst)) then raise (FileNotFoundError dst)
      else if is_dir (fs s) dst then raise (IsADirectoryError dst)
      else modify_fs (fun f =>
             mkFS (assoc_set dst c (assoc_del src (fs_files f))) (fs_dirs f))
  | None =>
      if negb (is_dir (fs s) src) then raise (FileNotFoundError src)
      else if is_prefix src dst then raise (ShutilError dst)
      else if exists_path (fs s) dst then raise (FileExistsError dst)
      else if existsb (is_file (fs s)) (ancestors dst) then raise (FileExistsError dst)
      else modify_fs (move_tree src dst)
  end.

(** [shutil.move(src, dst)]: when [dst] is a directory, a [dst] that is
    [src] itself ([_samefile]) is renamed onto itself; otherwise [src] goes
    inside [dst], unless an entry of that name exists there
    ([shutil.Error]). *)
Definition move (src dst : path) : M unit :=
  s <- get ;;
  if is_dir (fs s) dst then
    if path_eqb src dst then rename src dst
    else
      let real_dst := join dst (name src) in
      if exists_path (fs s) real_dst then raise (ShutilError real_dst)
      else rename src real_dst
  else rename src dst.

(** [Path.mkdir(parents=True, exist_ok=True)]: raises when [p] or one of
    its ancestors is a regular file, creates the missing ones otherwise. *)
Definition mkdir_parents (p : path) : M unit :=
  for_each (ancestors p) (fun q =>
    s <- get ;;
    if is_file (fs s) q then raise (FileExistsError q)
    else if is_dir (fs s) q then ret tt
    else modify_fs (fun f => mkFS (fs_files f) (fs_dirs f ++ [q]))).

(** [Path.iterdir()]: the entries directly under [p] (directories first,
    then files), as [os.listdir] returns them. *)
Definition children (f : FS) (p : path) : list path :=
  filter (fun q => path_eqb (parent q) p && negb (path_eqb q p)) (fs_dirs f)
  ++ filter (fun q => path_eqb (parent q) p) (map fst (fs_files f)).

Definition iterdir (p : path) : M (list path) :=
  s <- get ;;
  if is_dir (fs s) p then ret (children (fs s) p)
  else raise (FileNotFoundError p).

(** [Path.rmdir()]. *)
Definition rmdir (p : path) : M unit :=
  s <- get ;;
  if negb (is_dir (fs s) p) then raise (FileNotFoundError p)
  else match children (fs s) p with
       | [] => modify_fs (fun f =>
                 mkFS (fs_files f) (filter (fun q => negb (path_eqb q p)) (fs_dirs f)))
       | _ => raise (DirNotEmpty p)
       end.

(** ** FolderReorganizer *)

(** [_check_rule_conditions]: only the ["extensions"] key is checked,
    against [file_path.suffix[1:]]. *)
Definition check_rule_conditions (file_path : path) (rule : Rule) : bool :=
  match rule_extensions rule with
  | Some exts =>
      if existsb (String.eqb (drop1 (suffix file_path))) exts then true else false
  | None => true
  end.

(** [rule.get('category', 'Uncategorized')]. *)
Definition rule_target (rule : Rule) : string :=
  match rule_category rule with
  | Some c => c
  | None => "Uncategorized"
  end.

Fixpoint categorize_rules (file_path : path) (rules : list Rule) : string :=
  match rules with
  | [] => "Uncategorized"
  | rule :: rules' =>
      if check_rule_conditions file_path rule then rule_target rule
      else categorize_rules file_path rules'
  end.

(** [_categorize_file]: [for rule in self.config.get('hierarchy_rules', [])]. *)
Definition categorize_file (cfg : Config) (file_path : path) : string :=
  categorize_rules file_path (hierarchy_rules cfg).

(** A plan: [Dict[str, List[Path]]], in insertion order. *)
Definition Plan := list (string * list path).

Fixpoint plan_get (c : string) (d : Plan) : option (list path) :=
  match d with
  | [] => None
  | (c', l) :: d' => if String.eqb c c' then Some l else plan_get c d'
  end.

(** [if category not in d: d[category] = []; d[category].append(file_path)] *)
Fixpoint plan_append (c : string) (p : path) (d : Plan) : Plan :=
  match d with
  | [] => [(c, [p])]
  | (c', l) :: d' =>
      if String.eqb c c' then (c', l ++ [p]) :: d' else (c', l) :: plan_append c p d'
  end.

(** [source_directory.rglob('*')]: every entry strictly below the source
    directory, in the order the file system lists them. *)
Definition rglob (f : FS) (dir : path) : list path :=
  filter (fun q => (length dir <? length q)%nat && path_eqb (firstn (length dir) q) dir)
    (fs_dirs f ++ map fst (fs_files f)).

Definition group_files (cfg : Config) (f : FS) (entries : list path) : Plan :=
  fold_left (fun d file_path =>
      if is_file f file_path then plan_append (categorize_file cfg file_path) file_path d
      else d)
    entries [].

(** [generate_folder_hierarchy]. *)
Definition generate_folder_hierarchy (source_directory : path) : M Plan :=
  s <- get ;;
  ret (group_files (config s) (fs s) (rglob (fs s) source_directory)).

(** [str(path)] for an absolute path. *)
Definition path_str (p : path) : string := "/" ++ String.concat "/" p.

Definition newline : string := String (ascii_of_nat 10) "".

(** [preview_changes]. *)
Definition preview_changes (proposed_hierarchy : Plan) : M unit :=
  print "Proposed Folder Reorganization:" ;;;
  for_each proposed_hierarchy (fun kv =>
    print (newline ++ "Category: " ++ fst kv)%string ;;;
    for_each (snd kv) (fun file_path => print ("  - " ++ path_str file_path)%string)).

(** The body of the inner loop of [apply_reorganization]. *)
Definition apply_file (category_dir : path) (file_path : path) : M unit :=
  s <- get ;;
  set_prev (assoc_set file_path file_path (previous_state s)) ;;;
  let destination := join category_dir (name file_path) in
  move file_path destination.

Definition apply_category (base_output_dir : path) (entry : string * list path) : M unit :=
  let category_dir := join base_output_dir (fst entry) in
  mkdir_parents category_dir ;;;
  for_each (snd entry) (apply_file category_dir).

(** [apply_reorganization]. *)
Definition apply_reorganization (proposed_hierarchy : Plan) (base_output_dir : path) : M unit :=
  set_prev [] ;;;
  for_each proposed_hierarchy (apply_category base_output_dir).

(** [rollback]. *)
Definition rollback (base_output_dir : path) : M unit :=
  s <- get ;;
  match previous_state s with
  | [] => print "No previous state to rollback."
  | prev =>
      for_each prev (fun kv => move (snd kv) (fst kv)) ;;;
      set_prev [] ;;;
      entries <- iterdir base_output_dir ;;
      for_each entries (fun category_dir =>
        s' <- get ;;
        if is_dir (fs s') category_dir then
          match children (fs s') category_dir with
          | [] => rmdir category_dir
          | _ => ret tt
          end
        else ret tt)
  end.

(** ** Loading the reorganization configuration *)

(** JSON values as [json.load] returns them (numbers are not read by the
    code, their value is kept as an integer). *)
Inductive json : Type :=
| JNull
| JBool (b : bool)
| JNum (n : Z)
| JStr (s : string)
| JArr (l : list json)
| JObj (fields : list (string * json)).

(** What [open(config_path)] followed by [json.load(f)] gives. *)
Inductive json_file : Type :=
| NoFile                 (* open raises FileNotFoundError *)
| BadJson                (* json.load raises JSONDecodeError *)
| Parsed (j : json).

Inductive load_error : Type :=
| LoadFileNotFound
| LoadJSONDecodeError
| LoadTypeError          (* "argument of type ... is not iterable" *)
| LoadValueError (msg : string).

(** Python's [sub in s] on strings. *)
Fixpoint str_contains (s sub : string) : bool :=
  String.prefix sub s ||
  match s with
  | EmptyString => false
  | String _ s' => str_contains s' sub
  end.

(** Python's [key in value] for the value [json.load] returned: dict keys,
    list elements ([==] with a string), substrings of a string; any other
    value raises [TypeError]. *)
Definition py_contains (v : json) (key : string) : option bool :=
  match v with
  | JObj fields => Some (existsb (fun kv => String.eqb (fst kv) key) fields)
  | JArr l => Some (existsb (fun x => match x with JStr s => String.eqb s key | _ => false end) l)
  | JStr s => Some (str_contains s key)
  | _ => None
  end.

Definition required_keys : list string := ["hierarchy_rules"; "classification_weights"].

Fixpoint validate_keys (cfg : json) (keys : list string) : option load_error :=
  match keys with
  | [] => None
  | key :: keys' =>
      match py_contains cfg key with
      | None => Some LoadTypeError
      | Some true => validate_keys cfg keys'
      | Some false => Some (LoadValueError ("Missing required configuration key: " ++ key)%string)
      end
  end.

(** [_load_reorganization_config]: the loaded value becomes [self.config]
    when validation passes. *)
Definition load_reorganization_config (file : json_file) : json + load_error :=
  match file with
  | NoFile => inr LoadFileNotFound
  | BadJson => inr LoadJSONDecodeError
  | Parsed cfg =>
      match validate_keys cfg required_keys with
      | None => inl cfg
      | Some e => inr e
      end
  end.

(** The ledger [apply_reorganization] builds from a plan: every planned file,
    in plan order, recorded through [_previous_state[file_path] = file_path]. *)
Definition ledger_of_plan (plan : Plan) : list (path * path) :=
  fold_left (fun acc p => assoc_set p p acc) (concat (map snd plan)) [].

(** The moves [apply_reorganization] asks [shutil.move] for, in order: a
    (destination, source) pair for every planned file. *)
Definition planned_moves (plan : Plan) (base : path) : list (path * path) :=
  concat (map (fun kv => map (fun p => (join (join base (fst kv)) (name p), p)) (snd kv)) plan).

(** The last source a list of moves sends to [q]. *)
Definition last_source (moves : list (path * path)) (q : path) : option path :=
  fold_left (fun acc dp => if path_eqb q (fst dp) then Some (snd dp) else acc) moves None.

(** The regular files after a list of moves of regular files, each
    replacing what is at its destination: a destination holds the content
    its last source had before the moves, a source is gone, any other path
    is unchanged. *)
Definition files_after_moves (orig : path -> option string) (moves : list (path * path))
  (q : path) : option string :=
  match last_source moves q with
  | Some p => orig p
  | None => if existsb (path_eqb q) (map snd moves) then None else orig q
  end.

(** ** Examples *)

Definition ex_fs : FS :=
  mkFS [(["src"; "report.txt"], "work report")]
       [["src"]; ["out"]].

Definition ex_st : St := mkSt (mkConfig []) [] ex_fs [].

Definition ex_plan : Plan := [("Work", [["src"; "report.txt"]])].


Example suffix_tar_gz : suffix ["a"; "x.tar.gz"] = ".gz". Proof. reflexivity. Qed.
Example suffix_hidden : suffix ["a"; ".bashrc"] = "". Proof. reflexivity. Qed.

(** ** FileAnalyzer and process_files *)

Module Analyzer.

(** A dict with string keys, in insertion order. *)
Fixpoint dget {V} (k : string) (d : list (string * V)) : option V :=
  match d with
  | [] => None
  | (k', v) :: d' => if String.eqb k k' then Some v else dget k d'
  end.

Fixpoint dset {V} (k : string) (v : V) (d : list (string * V)) : list (string * V) :=
  match d with
  | [] => [(k, v)]
  | (k', v') :: d' => if String.eqb k k' then (k', v) :: d' else (k', v') :: dset k v d'
  end.

(** [d.get(k, default)]. *)
Definition dget_or {V} (k : string) (d : list (string * V)) (default : V) : V :=
  match dget k d with Some v => v | None => default end.

(** [dict(zip(keys, values))]. *)
Fixpoint dict_zip {V} (ks : list string) (vs : list V) (acc : list (string * V))
  : list (string * V) :=
  match ks, vs with
  | k :: ks', v :: vs' => dict_zip ks' vs' (dset k v acc)
  | _, _ => acc
  end.

(** [os.stat_result], the fields read. *)
Record Stats := mkStats {
  st_size : Z;
  st_ctime : float;
  st_mtime : float;
  st_ctime_ns : Z
}.

(** The dict returned by [extract_metadata]; [None] is the empty dict [{}]. *)
Record Metadata := mkMetadata {
  md_name : string;
  md_extension : string;
  md_size : Z;
  md_created : float;
  md_modified : float;
  md_year : Z
}.

(** What the analyzer sees of the machine: [Path.stat()] ([None] when it
    raises), [open(p, 'r', encoding='utf-8').read()] ([None] when it raises),
    the listing of [rglob('*')], [is_file()], whether [output_dir.mkdir]
    and the JSON write of a result file succeed; for [FileAnalyzer()], the
    default categories file, whether [spacy.load('en_core_web_sm')] finds
    the model, and whether the model loading ([spacy.load], after the
    download when it is needed, and [pipeline(...)]) succeeds. *)
Record World := mkWorld {
  w_categories : json_file;
  w_spacy_installed : bool;
  w_models_ok : bool;
  w_stat : path -> option Stats;
  w_read : path -> option string;
  w_rglob : path -> list path;
  w_is_file : path -> bool;
  w_mkdir_ok : path -> bool;
  w_write_ok : path -> bool
}.

(** [PurePath.stem]. *)
Definition stem (p : path) : string :=
  let nm := name p in
  let sfx := suffix p in
  substring 0 (String.length nm - String.length sfx)%nat nm.

(** [extract_metadata]: returns the metadata and the printed lines. *)
Definition extract_metadata (w : World) (file_path : path) : option Metadata * list string :=
  match w_stat w file_path with
  | Some stats =>
      match w_stat w file_path with   (* pathlib.Path(file_path).stat() *)
      | Some stats2 =>
          (Some (mkMetadata (name file_path) (suffix file_path) (st_size stats)
                  (st_ctime stats) (st_mtime stats)
                  (st_ctime_ns stats2 / 10 ^ 9 / 31536000 + 1970)%Z), [])
      | None => (None, ["Error extracting metadata"])
      end
  | None => (None, ["Error extracting metadata"])
  end.

(** The two external models and the float arithmetic of the weighting.
    Scores are the Python floats returned by the models; the combination and
    the comparison are those of the source, over any arithmetic. *)
Class Models := {
  score : Type;
  fmul : score -> score -> score;
  fadd : score -> score -> score;
  (** [a >= b] *)
  fge : score -> score -> bool;
  (** the literals [0.7] and [0.3], the default [0] of [.get(category, 0)],
      and the default threshold [0.5] *)
  w_zero_shot : score;
  w_semantic : score;
  zero_score : score;
  default_threshold : score;
  (** [self.classifier(text, labels, multi_label=True)]: its ['labels'] and
      ['scores'], [None] when the pipeline raises *)
  zero_shot : string -> list string -> option (list string * list score);
  (** [self.nlp(text).similarity(self.nlp(category))], [None] when it raises *)
  nlp_similarity : string -> string -> option score
}.

(** [FileAnalyzer]'s category lists as [_load_classification_config] sets
    them: the JSON values read from the categories file. *)
Record CategoriesConfig := mkCategoriesConfig {
  cc_purpose_categories : json;
  cc_project_categories : json;
  cc_version_types : json
}.

Definition jstrs (l : list string) : json := JArr (map JStr l).

Definition default_categories : CategoriesConfig := mkCategoriesConfig
  (jstrs ["Work"; "Leisure"; "Personal Projects"; "Private";
          "Family"; "Education"; "Finance"; "Health"])
  (jstrs ["Work"; "Personal"; "Academic"; "Freelance"])
  (jstrs ["unique"; "draft"; "revised"; "final"]).

(** Lookup in a dict loaded from JSON: a repeated key keeps its last value. *)
Fixpoint jget (k : string) (fields : list (string * json)) : option json :=
  match fields with
  | [] => None
  | (k', v) :: fields' =>
      match jget k fields' with
      | Some v' => Some v'
      | None => if String.eqb k k' then Some v else None
      end
  end.

Definition jget_or (k : string) (fields : list (string * json)) (default : json) : json :=
  match jget k fields with Some v => v | None => default end.

(** [_load_classification_config]: a missing file, bad JSON, or a value
    without [.get] (anything but a dict) falls into [except Exception]. *)
Definition load_classification_config (file : json_file) : CategoriesConfig * list string :=
  match file with
  | Parsed (JObj fields) =>
      (mkCategoriesConfig
         (jget_or "purpose_categories" fields (JArr []))
         (jget_or "project_categories" fields (JArr []))
         (jget_or "version_types" fields (jstrs ["unique"; "draft"; "revised"; "final"])),
       [])
  | _ => (default_categories, ["Error loading categories"])
  end.

Section Classification.
Context {Mo : Models}.

Record Analyzer := mkAnalyzer {
  purpose_categories : list string
}.

Definition combined_score (z s : score) : score :=
  fadd (fmul w_zero_shot z) (fmul w_semantic s).

Fixpoint semantic_scores (file_content : string) (cats : list string)
  (acc : list (string * score)) : option (list (string * score)) :=
  match cats with
  | [] => Some acc
  | c :: cats' =>
      match nlp_similarity file_content c with
      | Some s => semantic_scores file_content cats' (dset c s acc)
      | None => None
      end
  end.

Definition final_scores (cats : list string) (classifications semantic : list (string * score))
  (confidence_threshold : score) : list (string * score) :=
  fold_left (fun fin category =>
      let zero_shot_score := dget_or category classifications zero_score in
      let semantic_score := dget_or category semantic zero_score in
      let final_score := combined_score zero_shot_score semantic_score in
      if fge final_score confidence_threshold then dset category final_score fin else fin)
    cats [].

(** [classify_file_purpose]: on any exception, [{}]. *)
Definition classify_file_purpose (a : Analyzer) (file_content : string)
  (confidence_threshold : score) : list (string * score) :=
  match zero_shot file_content (purpose_categories a) with
  | None => []
  | Some (labels, scores) =>
      let classifications := dict_zip labels scores [] in
      match semantic_scores file_content (purpose_categories a) [] with
      | None => []
      | Some semantic =>
          final_scores (purpose_categories a) classifications semantic confidence_threshold
      end
  end.

(** The dict returned by [analyze_file]. *)
Record Analysis := mkAnalysis {
  an_path : path;
  an_metadata : option Metadata;
  an_purposes : list (string * score);
  an_content_preview : string;
  an_method : string
}.

Definition analyze_file (a : Analyzer) (w : World) (file_path : path) : Analysis * list string :=
  let (metadata, log1) := extract_metadata w file_path in
  let (content, log2) :=
    match w_read w file_path with
    | Some c => (c, @nil string)
    | None => (""%string, ["Error reading file"])
    end in
  let purposes := classify_file_purpose a content default_threshold in
  (mkAnalysis file_path metadata purposes (substring 0 500 content) "advanced_multi_model",
   log1 ++ log2).

(** The loop of [process_files], from the results gathered so far. *)
Fixpoint process_loop (a : Analyzer) (w : World) (output_dir : option path)
  (entries : list path) (acc : list Analysis) (log : list string)
  : list Analysis * list string :=
  match entries with
  | [] => (acc, log)
  | file_path :: entries' =>
      if w_is_file w file_path then
        let (file_analysis, l) := analyze_file a w file_path in
        let acc' := acc ++ [file_analysis] in
        let log' :=
          match output_dir with
          | Some d =>
              if w_write_ok w (join d (stem file_path ++ "_analysis.json"))
              then log ++ l else log ++ l ++ ["Error analyzing file"]
          | None => log ++ l
          end in
        process_loop a w output_dir entries' acc' log'
      else process_loop a w output_dir entries' acc log
  end.

(** [FileAnalyzer()]: [_load_classification_config(None)], then
    [_initialize_nlp_models()], which prints ["Downloading spaCy model..."]
    when the model is not installed; [None] when the model loading raises.
    Returns the categories read and the printed lines. *)
Definition file_analyzer_init (w : World) : option CategoriesConfig * list string :=
  let (cfg, log1) := load_classification_config (w_categories w) in
  let log2 := if w_spacy_installed w then [] else ["Downloading spaCy model..."] in
  (if w_models_ok w then Some cfg else None, log1 ++ log2).

(** [process_files]: [analyzer = FileAnalyzer()], then [output_dir.mkdir],
    then the loop.  [analyzer_of] is how the classifier and the loop over
    [self.purpose_categories] read the loaded categories.  The result is
    [None] when [FileAnalyzer()] or [output_dir.mkdir] raises, with the
    lines printed up to there. *)
Definition process_files (analyzer_of : CategoriesConfig -> Analyzer) (w : World)
  (directory : path) (output_dir : option path) : option (list Analysis) * list string :=
  match file_analyzer_init w with
  | (None, log0) => (None, log0)
  | (Some cfg, log0) =>
      let analyzer := analyzer_of cfg in
      match output_dir with
      | Some d =>
          if w_mkdir_ok w d then
            let (results, log) := process_loop analyzer w output_dir (w_rglob w directory) [] log0 in
            (Some results, log)
          else (None, log0)
      | None =>
          let (results, log) := process_loop analyzer w output_dir (w_rglob w directory) [] log0 in
          (Some results, log)
      end
  end.

Fixpoint nat_digits (fuel n : nat) (acc : string) : string :=
  match fuel with
  | O => acc
  | S fuel' =>
      let acc' := String (ascii_of_nat (48 + n mod 10)) acc in
      if (n <? 10)%nat then acc' else nat_digits fuel' (n / 10) acc'
  end.

(** [f"{n}"] for a natural number. *)
Definition nat_to_string (n : nat) : string := nat_digits (S n) n "".

(** [main] of [main.py], after argument parsing: its exit status and the
    printed lines.  An exception out of [process_files] is not caught and
    ends the interpreter with status 1. *)
Definition main (analyzer_of : CategoriesConfig -> Analyzer) (w : World) (is_dir : path -> bool)
  (directory : path) (output : option path) : Z * list string :=
  if negb (is_dir directory)
  then (1%Z, [("Error: " ++ path_str directory ++ " is not a valid directory.")%string])
  else match process_files analyzer_of w directory output with
       | (None, log) => (1%Z, log)
       | (Some results, log) =>
           (0%Z, log ++ [("Analyzed " ++ nat_to_string (length results) ++ " files.")%string])
       end.

End Classification.

End Analyzer.

(** ** Lemmas on the model *)

Lemma path_eqb_refl (p : path) : path_eqb p p = true.
Proof. unfold path_eqb; destruct (path_eq_dec p p); congruence. Qed.

Lemma path_eqb_eq (p q : path) : path_eqb p q = true <-> p = q.
Proof. unfold path_eqb; destruct (path_eq_dec p q); split; congruence. Qed.

Lemma path_eqb_neq (p q : path) : p <> q -> path_eqb p q = false.
Proof. unfold path_eqb; destruct (path_eq_dec p q); congruence. Qed.

Lemma check_rule_conditions_spec (p : path) (r : Rule) :
  check_rule_conditions p r = true <->
  (forall exts, rule_extensions r = Some exts -> In (drop1 (suffix p)) exts).
Proof.
  unfold check_rule_conditions; destruct (rule_extensions r) as [exts|]; split.
  - intros H exts' [= <-].
    destruct (existsb _ exts) eqn:E; [|discriminate].
    apply existsb_exists in E as [x [Hx Hx']].
    apply String.eqb_eq in Hx'; subst; exact Hx.
  - intros H. specialize (H exts eq_refl).
    assert (E : existsb (String.eqb (drop1 (suffix p))) exts = true).
    { apply existsb_exists; exists (drop1 (suffix p)); split;
        [exact H | apply String.eqb_refl]. }
    rewrite E; reflexivity.
  - intros _ exts' [=].
  - intros _; reflexivity.
Qed.

Lemma categorize_rules_app_nomatch (p : path) (pre post : list Rule) :
  Forall (fun r => check_rule_conditions p r = false) pre ->
  categorize_rules p (pre ++ post) = categorize_rules p post.
Proof.
  induction 1 as [|r pre' Hr _ IH]; simpl; [reflexivity|].
  rewrite Hr; exact IH.
Qed.

Lemma categorize_rules_spec (p : path) (rules : list Rule) (c : string) :
  categorize_rules p rules = c <->
  (exists pre r post, rules = pre ++ r :: post /\
     Forall (fun r' => check_rule_conditions p r' = false) pre /\
     check_rule_conditions p r = true /\ c = rule_target r)
  \/ (Forall (fun r' => check_rule_conditions p r' = false) rules /\ c = "Uncategorized").
Proof.
  induction rules as [|r rules IH]; simpl; split.
  - intros <-; right; split; [constructor | reflexivity].
  - intros [(pre & r & post & Heq & _)|[_ ->]]; [|reflexivity].
    destruct pre; discriminate.
  - destruct (check_rule_conditions p r) eqn:Hr.
    + intros <-; left; exists [], r, rules; repeat split; auto.
    + intros Hc; apply IH in Hc as [(pre & r' & post & -> & Hpre & Hr' & ->)|[Hall ->]].
      * left; exists (r :: pre), r', post; repeat split; auto.
      * right; split; auto.
  - intros [(pre & r' & post & Heq & Hpre & Hr' & ->)|[Hall ->]].
    + destruct pre as [|r0 pre]; simpl in Heq; injection Heq as -> Heq.
      * rewrite Hr'; reflexivity.
      * inversion Hpre as [|? ? Hr0 Hpre']; subst.
        rewrite Hr0; apply IH; left; exists pre, r', post; auto.
    + inversion Hall as [|? ? Hr Hall']; subst.
      rewrite Hr; apply IH; right; auto.
Qed.

Lemma plan_get_append (c c' : string) (p : path) (d : Plan) :
  plan_get c (plan_append c' p d) =
  if String.eqb c c'
  then Some (match plan_get c d with Some l => l ++ [p] | None => [p] end)
  else plan_get c d.
Proof.
  induction d as [|[k l] d IH]; simpl.
  - destruct (String.eqb c c'); reflexivity.
  - destruct (String.eqb c' k) eqn:E1; simpl.
    + apply String.eqb_eq in E1; subst k.
      destruct (String.eqb c c'); reflexivity.
    + destruct (String.eqb c k) eqn:E2.
      * apply String.eqb_eq in E2; subst k.
        destruct (String.eqb c c') eqn:E3; [|reflexivity].
        apply String.eqb_eq in E3; subst; rewrite String.eqb_refl in E1; discriminate.
      * exact IH.
Qed.

(** [o] extended by [l] the way repeated appends do. *)
Definition opt_app (o : option (list path)) (l : list path) : option (list path) :=
  match o, l with
  | None, [] => None
  | None, _ => Some l
  | Some l0, _ => Some (l0 ++ l)
  end.

Lemma group_files_fold (cfg : Config) (f : FS) (c : string) (entries : list path) (d : Plan) :
  plan_get c (fold_left (fun d file_path =>
      if is_file f file_path then plan_append (categorize_file cfg file_path) file_path d
      else d) entries d)
  = opt_app (plan_get c d)
      (filter (fun q => is_file f q && String.eqb (categorize_file cfg q) c) entries).
Proof.
  revert d; induction entries as [|q entries IH]; intros d; simpl.
  - destruct (plan_get c d); simpl; [rewrite app_nil_r|]; reflexivity.
  - rewrite IH.
    destruct (is_file f q) eqn:Hf; simpl.
    + rewrite plan_get_append.
      rewrite (String.eqb_sym c (categorize_file cfg q)).
      destruct (String.eqb (categorize_file cfg q) c); simpl.
      * destruct (plan_get c d); simpl; [rewrite <- app_assoc; reflexivity|].
        destruct (filter _ entries); reflexivity.
      * reflexivity.
    + reflexivity.
Qed.

Lemma group_files_get (cfg : Config) (f : FS) (c : string) (entries : list path) :
  plan_get c (group_files cfg f entries)
  = match filter (fun q => is_file f q && String.eqb (categorize_file cfg q) c) entries with
    | [] => None
    | l => Some l
    end.
Proof.
  unfold group_files; rewrite group_files_fold; simpl.
  destruct (filter _ entries); reflexivity.
Qed.

(** ** Rule-based categorization *)

(** C5: the rules of the configuration are tried in order; a rule matches
    exactly when its extension predicate (if any) holds of the file's
    suffix; the category returned is the target of the first matching rule,
    or ["Uncategorized"] when none matches; in particular, of two matching
    rules the earlier one decides (when no rule before it matches). *)
Theorem categorize_file_first_match (cfg : Config) (p : path) :
  (forall r, check_rule_conditions p r = true <->
     (forall exts, rule_extensions r = Some exts -> In (drop1 (suffix p)) exts))
  /\ (forall c, categorize_file cfg p = c <->
       (exists pre r post, hierarchy_rules cfg = pre ++ r :: post /\
          Forall (fun r' => check_rule_conditions p r' = false) pre /\
          check_rule_conditions p r = true /\ c = rule_target r)
       \/ (Forall (fun r' => check_rule_conditions p r' = false) (hierarchy_rules cfg)
           /\ c = "Uncategorized"))
  /\ (forall pre r1 mid r2 post,
        hierarchy_rules cfg = pre ++ r1 :: mid ++ r2 :: post ->
        Forall (fun r' => check_rule_conditions p r' = false) pre ->
        check_rule_conditions p r1 = true ->
        check_rule_conditions p r2 = true ->
        categorize_file cfg p = rule_target r1).
Proof.
  split; [intros r; apply check_rule_conditions_spec|].
  split; [intros c; apply categorize_rules_spec|].
  intros pre r1 mid r2 post Heq Hpre H1 _.
  unfold categorize_file; rewrite Heq, categorize_rules_app_nomatch by exact Hpre.
  simpl; rewrite H1; reflexivity.
Qed.

(** C10: a rule without an ["extensions"] key matches every file, so the
    rules after it are never reached, and every file that no earlier rule
    matches is given its category. *)
Theorem catch_all_rule (r : Rule) (Hr : rule_extensions r = None) :
  (forall p, check_rule_conditions p r = true)
  /\ (forall p pre post,
        categorize_rules p (pre ++ r :: post) = categorize_rules p (pre ++ [r]))
  /\ (forall p pre post,
        Forall (fun r' => check_rule_conditions p r' = false) pre ->
        categorize_rules p (pre ++ r :: post) = rule_target r).
Proof.
  assert (Hm : forall p, check_rule_conditions p r = true).
  { intros p; unfold check_rule_conditions; rewrite Hr; reflexivity. }
  split; [exact Hm|split].
  - intros p pre post; induction pre as [|r0 pre IH]; simpl.
    + rewrite Hm; reflexivity.
    + destruct (check_rule_conditions p r0); [reflexivity|exact IH].
  - intros p pre post Hpre; rewrite categorize_rules_app_nomatch by exact Hpre.
    simpl; rewrite Hm; reflexivity.
Qed.

Definition ex_catch_all : Rule := mkRule None (Some "Misc").
Definition ex_docs : Rule := mkRule (Some ["pdf"; "txt"]) (Some "Documents").

Lemma catch_all_rule_witness :
  rule_extensions ex_catch_all = None /\
  categorize_rules ["a"; "b.txt"] ([ex_catch_all] ++ ex_docs :: []) = "Misc".
Proof.
  split; [reflexivity|].
  apply (proj2 (proj2 (catch_all_rule ex_catch_all eq_refl)) ["a"; "b.txt"] [] [ex_docs]).
  constructor.
Defined.

Lemma categorize_file_first_match_witness :
  categorize_file (mkConfig [ex_docs; ex_catch_all]) ["a"; "b.txt"] = "Documents".
Proof.
  apply (proj2 (proj2 (categorize_file_first_match (mkConfig [ex_docs; ex_catch_all])
                         ["a"; "b.txt"])) [] ex_docs [] ex_catch_all []);
    [reflexivity | constructor | reflexivity | reflexivity].
Defined.

(** ** The plan *)

(** The plan computed from a state. *)
Definition plan_of (source_directory : path) (s : St) : Plan :=
  match generate_folder_hierarchy source_directory s with
  | Ret _ plan => plan
  | Raise _ _ => []
  end.

(** C7: generating the plan twice in a row on an unchanged tree with
    unchanged rules gives the same plan, and the state is left unchanged;
    the plan only depends on the rules and the tree (not on the ledger or
    anything else in the object), and each category maps to the files of the
    listing with that category, in listing order. *)
Theorem generate_folder_hierarchy_idempotent (source_directory : path) (s : St) :
  (exists plan,
     (p1 <- generate_folder_hierarchy source_directory ;;
      p2 <- generate_folder_hierarchy source_directory ;;
      ret (p1, p2)) s = Ret s (plan, plan))
  /\ (forall s', config s' = config s -> fs s' = fs s ->
        plan_of source_directory s' = plan_of source_directory s)
  /\ (forall c, plan_get c (plan_of source_directory s) =
        match filter (fun q => is_file (fs s) q && String.eqb (categorize_file (config s) q) c)
                (rglob (fs s) source_directory) with
        | [] => None
        | l => Some l
        end).
Proof.
  split; [eexists; reflexivity|split].
  - intros s' Hc Hf; unfold plan_of; simpl; rewrite Hc, Hf; reflexivity.
  - intros c; unfold plan_of; simpl; apply group_files_get.
Qed.

Lemma nonempty_some_in {A} (l l' : list A) (x : A) :
  match l with [] => None | y :: ys => Some (y :: ys) end = Some l' -> In x l' -> In x l.
Proof. destruct l; [discriminate|]; intros H; injection H as <-; auto. Qed.

(** C9: in a generated plan a file is listed under at most one category. *)
Theorem plan_file_at_most_one_category (source_directory : path) (s : St)
  (c1 c2 : string) (l1 l2 : list path) (p : path) :
  plan_get c1 (plan_of source_directory s) = Some l1 ->
  plan_get c2 (plan_of source_directory s) = Some l2 ->
  In p l1 -> In p l2 -> c1 = c2.
Proof.
  unfold plan_of; simpl; rewrite !group_files_get.
  intros H1 H2 Hp1 Hp2.
  assert (Hc : forall c l, match filter (fun q => is_file (fs s) q &&
                     String.eqb (categorize_file (config s) q) c)
                     (rglob (fs s) source_directory) with [] => None | l => Some l end
                   = Some l -> In p l -> categorize_file (config s) p = c).
  { intros c l H Hp.
    apply (nonempty_some_in _ _ p H) in Hp.
    apply filter_In in Hp as [_ Hp]; apply andb_true_iff in Hp as [_ Hp].
    apply String.eqb_eq; exact Hp. }
  rewrite <- (Hc c1 l1 H1 Hp1), <- (Hc c2 l2 H2 Hp2); reflexivity.
Qed.

Definition ex_tree : FS :=
  mkFS [(["s"; "a.txt"], "x"); (["s"; "b.pdf"], "y"); (["s"; "c.jpg"], "z")]
       [["s"]].

Definition ex_tree_st : St := mkSt (mkConfig [ex_docs]) [] ex_tree [].

Lemma plan_file_at_most_one_category_witness :
  plan_of ["s"] ex_tree_st =
    [("Documents", [["s"; "a.txt"]; ["s"; "b.pdf"]]); ("Uncategorized", [["s"; "c.jpg"]])]
  /\ "Documents" = "Documents".
Proof.
  split; [vm_compute; reflexivity|].
  apply (plan_file_at_most_one_category ["s"] ex_tree_st "Documents" "Documents"
           [["s"; "a.txt"]; ["s"; "b.pdf"]] [["s"; "a.txt"]; ["s"; "b.pdf"]] ["s"; "a.txt"]);
    [vm_compute; reflexivity | vm_compute; reflexivity | left; reflexivity | left; reflexivity].
Defined.

(** ** Rollback on an empty ledger *)

(** C8: with an empty ledger, [rollback] prints "No previous state to
    rollback.", raises nothing, and leaves the file system (and everything
    else in the state) unchanged. *)
Theorem rollback_empty_ledger (base_output_dir : path) (s : St) :
  previous_state s = [] ->
  rollback base_output_dir s
  = Ret (mkSt (config s) (previous_state s) (fs s)
              (stdout s ++ ["No previous state to rollback."])) tt.
Proof.
  intros H; unfold rollback, bind, get; simpl; rewrite H; unfold print; rewrite H; reflexivity.
Qed.

Lemma rollback_empty_ledger_witness :
  rollback ["out"] ex_st
  = Ret (mkSt (mkConfig []) [] ex_fs ["No previous state to rollback."]) tt.
Proof. apply (rollback_empty_ledger ["out"] ex_st); reflexivity. Defined.

(** ** Moves and directory creation *)

Lemma assoc_get_set {V} (q k : path) (v : V) (l : list (path * V)) :
  assoc_get q (assoc_set k v l) = if path_eqb q k then Some v else assoc_get q l.
Proof.
  induction l as [|[k' v'] l IH]; simpl.
  - destruct (path_eqb q k); reflexivity.
  - destruct (path_eqb k k') eqn:E1; simpl.
    + apply path_eqb_eq in E1; subst k'. destruct (path_eqb q k); reflexivity.
    + rewrite IH. destruct (path_eqb q k') eqn:E2; [|reflexivity].
      apply path_eqb_eq in E2; subst k'.
      destruct (path_eqb q k) eqn:E3; [|reflexivity].
      apply path_eqb_eq in E3; subst; rewrite path_eqb_refl in E1; discriminate.
Qed.

Lemma assoc_get_del {V} (q k : path) (l : list (path * V)) :
  assoc_get q (assoc_del k l) = if path_eqb q k then None else assoc_get q l.
Proof.
  unfold assoc_del; induction l as [|[k' v'] l IH]; simpl.
  - destruct (path_eqb q k); reflexivity.
  - destruct (path_eqb k k') eqn:E1; simpl.
    + apply path_eqb_eq in E1; subst k'. rewrite IH.
      destruct (path_eqb q k); reflexivity.
    + rewrite IH. destruct (path_eqb q k') eqn:E2; [|reflexivity].
      apply path_eqb_eq in E2; subst k'.
      destruct (path_eqb q k) eqn:E3; [|reflexivity].
      apply path_eqb_eq in E3; subst; rewrite path_eqb_refl in E1; discriminate.
Qed.

Lemma bind_Ret {A B} (m : M A) (k : A -> M B) (s s' : St) (a : A) :
  m s = Ret s' a -> bind m k s = k a s'.
Proof. intros H; unfold bind; rewrite H; reflexivity. Qed.


Lemma bind_Ret_then {A B} (m : M A) (k : A -> M B) (s s' : St) (a : A) (r : outcome B) :
  m s = Ret s' a -> k a s' = r -> bind m k s = r.
Proof. intros H Hk; unfold bind; rewrite H; exact Hk. Qed.

(** Replacing the regular files of the state. *)
Definition with_files (s : St) (files : list (path * string)) : St :=
  mkSt (config s) (previous_state s) (mkFS files (fs_dirs (fs s))) (stdout s).

Lemma move_ok (src dst : path) (c : string) (s : St) :
  src <> dst ->
  file_at (fs s) src = Some c ->
  is_dir (fs s) dst = false ->
  is_dir (fs s) (parent dst) = true ->
  move src dst s = Ret (with_files s (assoc_set dst c (assoc_del src (fs_files (fs s))))) tt.
Proof.
  intros Hne Hs Hd Hp; unfold move, rename, bind, get; simpl.
  rewrite Hd, (path_eqb_neq _ _ Hne), Hs, Hp, Hd; reflexivity.
Qed.

Lemma move_missing (src dst : path) (s : St) :
  exists_path (fs s) src = false -> exists e, move src dst s = Raise s e.
Proof.
  intros Hs; unfold exists_path, is_file in Hs.
  destruct (file_at (fs s) src) eqn:Hf; [discriminate|]; simpl in Hs.
  unfold move, rename, bind, get; simpl.
  destruct (is_dir (fs s) dst) eqn:Hd.
  - destruct (path_eqb src dst) eqn:E.
    + apply path_eqb_eq in E; subst dst; rewrite Hs in Hd; discriminate.
    + destruct (exists_path _ _); simpl; [eexists; reflexivity|].
      destruct (path_eqb src (join dst (name src))); simpl.
      * unfold exists_path, is_file; rewrite Hf, Hs; eexists; reflexivity.
      * rewrite Hf, Hs; eexists; reflexivity.
  - destruct (path_eqb src dst); simpl.
    + unfold exists_path, is_file; rewrite Hf, Hs; eexists; reflexivity.
    + rewrite Hf, Hs; eexists; reflexivity.
Qed.


Lemma for_each_mkdir (L : list path) (s : St) :
  (forall q, In q L -> is_file (fs s) q = false) ->
  exists dirs',
    for_each L (fun q =>
      s0 <- get ;;
      if is_file (fs s0) q then raise (FileExistsError q)
      else if is_dir (fs s0) q then ret tt
      else modify_fs (fun f => mkFS (fs_files f) (fs_dirs f ++ [q]))) s
    = Ret (mkSt (config s) (previous_state s) (mkFS (fs_files (fs s)) dirs') (stdout s)) tt
    /\ forall q, existsb (path_eqb q) dirs' = is_dir (fs s) q || existsb (path_eqb q) L.
Proof.
  revert s; induction L as [|x L IH]; intros s HL; simpl.
  - exists (fs_dirs (fs s)); split.
    + destruct s as [? ? [] ?]; reflexivity.
    + intros q; rewrite orb_false_r; reflexivity.
  - assert (Hx : is_file (fs s) x = false) by (apply HL; left; reflexivity).
    destruct (is_dir (fs s) x) eqn:Ed.
    + destruct (IH s) as [dirs' [Hrun Hd]]; [intros q Hq; apply HL; right; exact Hq|].
      exists dirs'; split.
      * erewrite bind_Ret; [exact Hrun|].
        unfold bind, get; rewrite Hx, Ed; reflexivity.
      * intros q; rewrite Hd. destruct (path_eqb q x) eqn:E; simpl.
        -- apply path_eqb_eq in E; subst; rewrite Ed; reflexivity.
        -- reflexivity.
    + set (s1 := mkSt (config s) (previous_state s)
                   (mkFS (fs_files (fs s)) (fs_dirs (fs s) ++ [x])) (stdout s)).
      destruct (IH s1) as [dirs' [Hrun Hd]]; [intros q Hq; apply HL; right; exact Hq|].
      exists dirs'; split.
      * erewrite bind_Ret; [exact Hrun|].
        unfold bind, get; rewrite Hx, Ed; reflexivity.
      * intros q; rewrite Hd; unfold s1, is_dir; simpl.
        rewrite existsb_app; simpl.
        destruct (path_eqb q x); simpl; rewrite ?orb_true_r; [reflexivity|].
        rewrite orb_false_r; reflexivity.
Qed.

Lemma mkdir_parents_ok (d : path) (s : St) :
  (forall q, In q (ancestors d) -> is_file (fs s) q = false) ->
  exists dirs',
    mkdir_parents d s
    = Ret (mkSt (config s) (previous_state s) (mkFS (fs_files (fs s)) dirs') (stdout s)) tt
    /\ forall q, existsb (path_eqb q) dirs' = is_dir (fs s) q || existsb (path_eqb q) (ancestors d).
Proof. apply for_each_mkdir. Qed.

Lemma ancestors_length (d q : path) : In q (ancestors d) -> length q <= length d.
Proof.
  unfold ancestors; intros H; apply in_map_iff in H as [k [<- _]].
  rewrite length_firstn; lia.
Qed.

Lemma ancestors_self (d : path) : d <> [] -> existsb (path_eqb d) (ancestors d) = true.
Proof.
  intros Hd; apply existsb_exists; exists d; split; [|apply path_eqb_refl].
  unfold ancestors; apply in_map_iff; exists (length d); split.
  - apply firstn_all.
  - apply in_seq; destruct d; [contradiction|simpl; lia].
Qed.

Lemma parent_join (d : path) (x : string) : parent (join d x) = d.
Proof. unfold parent, join; apply removelast_last. Qed.

Lemma apply_file_eq (category_dir file_path : path) (s : St) :
  apply_file category_dir file_path s
  = move file_path (join category_dir (name file_path))
      (mkSt (config s) (assoc_set file_path file_path (previous_state s)) (fs s) (stdout s)).
Proof. reflexivity. Qed.

(** ** How the ledger evolves *)

(** [m] never changes [self._previous_state] when it returns normally. *)
Definition keeps_prev {A} (m : M A) : Prop :=
  forall s s' a, m s = Ret s' a -> previous_state s' = previous_state s.

Lemma keeps_prev_bind {A B} (m : M A) (k : A -> M B) :
  keeps_prev m -> (forall a, keeps_prev (k a)) -> keeps_prev (bind m k).
Proof.
  intros Hm Hk s s' b H; unfold bind in H.
  destruct (m s) as [s1 a|s1 e] eqn:E; [|discriminate].
  rewrite (Hk a s1 s' b H); exact (Hm s s1 a E).
Qed.

Lemma keeps_prev_get : keeps_prev get.
Proof. intros s s' a H; inversion H; reflexivity. Qed.

Lemma keeps_prev_ret {A} (x : A) : keeps_prev (ret x).
Proof. intros s s' a H; inversion H; reflexivity. Qed.

Lemma keeps_prev_raise {A} (e : exn) : keeps_prev (@raise A e).
Proof. intros s s' a H; discriminate. Qed.

Lemma keeps_prev_modify_fs (f : FS -> FS) : keeps_prev (modify_fs f).
Proof. intros s s' a H; inversion H; reflexivity. Qed.

Lemma keeps_prev_print (msg : string) : keeps_prev (print msg).
Proof. intros s s' a H; inversion H; reflexivity. Qed.

Lemma keeps_prev_for_each {A} (l : list A) (body : A -> M unit) :
  (forall x, keeps_prev (body x)) -> keeps_prev (for_each l body).
Proof.
  intros Hb; induction l as [|x l IH]; simpl; [apply keeps_prev_ret|].
  apply keeps_prev_bind; [apply Hb | intros _; exact IH].
Qed.

Ltac keeps :=
  repeat first
    [ apply keeps_prev_get | apply keeps_prev_ret | apply keeps_prev_raise
    | apply keeps_prev_modify_fs | apply keeps_prev_print
    | apply keeps_prev_bind; [|intros ?]
    | match goal with
      | |- keeps_prev (if ?b then _ else _) => destruct b
      | |- keeps_prev (match ?x with _ => _ end) => destruct x
      end ].

Lemma keeps_prev_rename (src dst : path) : keeps_prev (rename src dst).
Proof. unfold rename; keeps. Qed.

Lemma keeps_prev_move (src dst : path) : keeps_prev (move src dst).
Proof. unfold move; keeps; apply keeps_prev_rename. Qed.

Lemma keeps_prev_mkdir_parents (d : path) : keeps_prev (mkdir_parents d).
Proof. unfold mkdir_parents; apply keeps_prev_for_each; intros q; keeps. Qed.

Lemma keeps_prev_iterdir (p : path) : keeps_prev (iterdir p).
Proof. unfold iterdir; keeps. Qed.

Lemma keeps_prev_rmdir (p : path) : keeps_prev (rmdir p).
Proof. unfold rmdir; keeps. Qed.

Lemma bind_inv {A B} (m : M A) (k : A -> M B) (s s' : St) (b : B) :
  bind m k s = Ret s' b -> exists s1 a, m s = Ret s1 a /\ k a s1 = Ret s' b.
Proof.
  unfold bind; destruct (m s) as [s1 a|s1 e]; intros H; [|discriminate].
  exists s1, a; split; [reflexivity|exact H].
Qed.

Lemma for_each_apply_file_prev (cd : path) (L : list path) (s s' : St) :
  for_each L (apply_file cd) s = Ret s' tt ->
  previous_state s' = fold_left (fun acc p => assoc_set p p acc) L (previous_state s).
Proof.
  revert s; induction L as [|x L IH]; intros s H; simpl in H.
  - inversion H; reflexivity.
  - apply bind_inv in H as (s1 & [] & E & H).
    rewrite (IH s1 H); simpl; f_equal.
    rewrite apply_file_eq in E; apply keeps_prev_move in E; exact E.
Qed.

Lemma for_each_apply_category_prev (base : path) (plan : Plan) (s s' : St) :
  for_each plan (apply_category base) s = Ret s' tt ->
  previous_state s' =
    fold_left (fun acc p => assoc_set p p acc) (concat (map snd plan)) (previous_state s).
Proof.
  revert s; induction plan as [|e plan IH]; intros s H; simpl in H.
  - inversion H; reflexivity.
  - apply bind_inv in H as (s1 & [] & E & H).
    rewrite (IH s1 H); simpl; rewrite fold_left_app; f_equal; clear H IH.
    unfold apply_category in E; apply bind_inv in E as (s2 & [] & E1 & E2).
    rewrite (for_each_apply_file_prev _ _ _ _ E2).
    apply keeps_prev_mkdir_parents in E1; rewrite E1; reflexivity.
Qed.

Lemma assoc_set_In {V} (k p : path) (v w : V) (l : list (path * V)) :
  In (k, v) (assoc_set p w l) -> (k = p /\ v = w) \/ In (k, v) l.
Proof.
  induction l as [|[k' v'] l IH]; simpl.
  - intros [[= -> ->]|[]]; left; auto.
  - destruct (path_eqb p k') eqn:E; simpl.
    + apply path_eqb_eq in E; subst k'.
      intros [[= -> ->]|H]; [left; auto | right; right; exact H].
    + intros [H|H]; [right; left; exact H|].
      destruct (IH H) as [H'|H']; [left; exact H' | right; right; exact H'].
Qed.

Lemma fold_assoc_set_In (L : list path) (acc : list (path * path)) (k v : path) :
  In (k, v) (fold_left (fun acc p => assoc_set p p acc) L acc) ->
  In (k, v) acc \/ (k = v /\ In k L).
Proof.
  revert acc; induction L as [|x L IH]; intros acc H; simpl in *; [left; exact H|].
  destruct (IH _ H) as [H'|[-> H']]; [|right; split; auto].
  apply assoc_set_In in H' as [[-> ->]|H']; [right; split; auto | left; exact H'].
Qed.

Lemma fold_assoc_set_get (L : list path) (acc : list (path * path)) (q : path) :
  assoc_get q (fold_left (fun acc p => assoc_set p p acc) L acc)
  = if existsb (path_eqb q) L then Some q else assoc_get q acc.
Proof.
  revert acc; induction L as [|x L IH]; intros acc; simpl; [reflexivity|].
  rewrite IH, assoc_get_set.
  destruct (path_eqb q x) eqn:E; simpl; [|reflexivity].
  apply path_eqb_eq in E; subst; destruct (existsb _ L); reflexivity.
Qed.

Lemma apply_reorganization_prev (plan : Plan) (base : path) (s s' : St) :
  apply_reorganization plan base s = Ret s' tt -> previous_state s' = ledger_of_plan plan.
Proof.
  intros H; unfold apply_reorganization in H.
  apply bind_inv in H as (s1 & [] & E & H).
  apply for_each_apply_category_prev in H.
  inversion E; subst s1; exact H.
Qed.

(** ** Apply, then rollback *)

(** C1 (as the code does it): after a successful [apply_reorganization]
    of the plan [{"Work": [/src/report.txt]}] into [/out], [rollback]
    raises [FileNotFoundError] on [/src/report.txt]: the ledger recorded the
    original path as the file's current path, so the file stays at
    [/out/Work/report.txt] and is not restored. *)
Theorem rollback_after_apply_not_restored :
  (apply_reorganization ex_plan ["out"] ;;; rollback ["out"]) ex_st
  = Raise (mkSt (mkConfig []) [(["src"; "report.txt"], ["src"; "report.txt"])]
             (mkFS [(["out"; "Work"; "report.txt"], "work report")]
                   [["src"]; ["out"]; ["out"; "Work"]]) [])
          (FileNotFoundError ["src"; "report.txt"])
  /\ apply_reorganization ex_plan ["out"] ex_st
     = Ret (mkSt (mkConfig []) [(["src"; "report.txt"], ["src"; "report.txt"])]
             (mkFS [(["out"; "Work"; "report.txt"], "work report")]
                   [["src"]; ["out"]; ["out"; "Work"]]) []) tt.
Proof. split; vm_compute; reflexivity. Qed.

(** ** Destination collisions *)

Definition ex_collide_fs : FS :=
  mkFS [(["s"; "a"; "x.txt"], "one"); (["s"; "b"; "x.txt"], "two")]
       [["s"]; ["s"; "a"]; ["s"; "b"]; ["out"]].

Definition ex_collide_plan : Plan := [("Docs", [["s"; "a"; "x.txt"]; ["s"; "b"; "x.txt"]])].

(** C2 is refuted: two files of one category sharing the basename [x.txt]
    are both moved to [/out/Docs/x.txt]; the second replaces the first, and
    the content ["one"] is no longer anywhere in the tree. *)
Lemma collision_overwrites :
  apply_reorganization ex_collide_plan ["out"] (mkSt (mkConfig []) [] ex_collide_fs [])
  = Ret (mkSt (mkConfig [])
           [(["s"; "a"; "x.txt"], ["s"; "a"; "x.txt"]); (["s"; "b"; "x.txt"], ["s"; "b"; "x.txt"])]
           (mkFS [(["out"; "Docs"; "x.txt"], "two")]
                 [["s"]; ["s"; "a"]; ["s"; "b"]; ["out"]; ["out"; "Docs"]]) []) tt.
Proof. vm_compute; reflexivity. Qed.

Lemma not_dir_after_mkdir (dirs' : list path) (f : FS) (d dest : path) :
  (forall q, existsb (path_eqb q) dirs' = is_dir f q || existsb (path_eqb q) (ancestors d)) ->
  is_dir f dest = false -> length d < length dest ->
  existsb (path_eqb dest) dirs' = false.
Proof.
  intros Hdirs Hd Hlen; rewrite Hdirs, Hd; simpl.
  destruct (existsb (path_eqb dest) (ancestors d)) eqn:E; [|reflexivity].
  apply existsb_exists in E as [q [Hq Heq]]; apply path_eqb_eq in Heq; subst q.
  apply ancestors_length in Hq; lia.
Qed.

Lemma last_source_acc (moves : list (path * path)) (q : path) (acc : option path) :
  fold_left (fun acc dp => if path_eqb q (fst dp) then Some (snd dp) else acc) moves acc
  = match last_source moves q with Some p => Some p | None => acc end.
Proof.
  unfold last_source; revert acc; induction moves as [|[d p] moves IH]; intros acc; simpl.
  - reflexivity.
  - rewrite (IH (if path_eqb q d then Some p else acc)),
      (IH (if path_eqb q d then Some p else None)).
    destruct (fold_left _ moves None); [reflexivity|].
    destruct (path_eqb q d); reflexivity.
Qed.

Lemma last_source_app (m1 m2 : list (path * path)) (q : path) :
  last_source (m1 ++ m2) q
  = match last_source m2 q with Some p => Some p | None => last_source m1 q end.
Proof. unfold last_source at 1; rewrite fold_left_app; apply last_source_acc. Qed.

Lemma last_source_In (moves : list (path * path)) (q p : path) :
  last_source moves q = Some p -> In (q, p) moves.
Proof.
  induction moves as [|[d p'] moves IH] using rev_ind; [discriminate|].
  intros H; rewrite last_source_app in H; unfold last_source at 1 in H; simpl in H.
  destruct (path_eqb q d) eqn:E; simpl in H.
  - injection H as <-; apply path_eqb_eq in E; subst d.
    apply in_or_app; right; left; reflexivity.
  - apply in_or_app; left; apply IH; exact H.
Qed.

Lemma last_source_none (moves : list (path * path)) (q : path) :
  (forall dp, In dp moves -> fst dp <> q) -> last_source moves q = None.
Proof.
  intros H; destruct (last_source moves q) as [p|] eqn:E; [|reflexivity].
  apply last_source_In, H in E; simpl in E; contradiction.
Qed.

Lemma last_source_some (moves : list (path * path)) (q : path) (dp : path * path) :
  In dp moves -> fst dp = q -> last_source moves q <> None.
Proof.
  intros Hin Hq; apply in_split in Hin as [A [B ->]].
  replace (A ++ dp :: B) with ((A ++ [dp]) ++ B) by (rewrite <- app_assoc; reflexivity).
  rewrite last_source_app; destruct (last_source B q); [discriminate|].
  rewrite last_source_app; unfold last_source at 1; subst q; destruct dp as [d p]; simpl.
  rewrite path_eqb_refl; discriminate.
Qed.

Lemma map_snd_planned_moves (plan : Plan) (base : path) :
  map snd (planned_moves plan base) = concat (map snd plan).
Proof.
  unfold planned_moves; induction plan as [|[c fl] plan IH]; simpl; [reflexivity|].
  rewrite map_app, IH, map_map; simpl; rewrite map_id; reflexivity.
Qed.

Lemma is_prefix_refl (base : path) : is_prefix base base = true.
Proof. unfold is_prefix; rewrite firstn_all; apply path_eqb_refl. Qed.

Lemma is_prefix_app (base q r : path) : is_prefix base q = true -> is_prefix base (q ++ r) = true.
Proof.
  unfold is_prefix; intros H; apply path_eqb_eq in H; apply path_eqb_eq.
  assert (Hl : length base <= length q).
  { rewrite <- H at 1; rewrite length_firstn; lia. }
  rewrite firstn_app; replace (length base - length q) with 0 by lia.
  simpl; rewrite app_nil_r; exact H.
Qed.

Lemma files_after_moves_step (orig : path -> option string) (ms : list (path * path))
  (F : list (path * string)) (d p : path) (c : string) :
  (forall q, assoc_get q F = files_after_moves orig ms q) ->
  orig p = Some c ->
  (forall dp, In dp ms -> fst dp <> p) ->
  ~ In p (map snd ms) ->
  assoc_get p F = Some c
  /\ forall q, assoc_get q (assoc_set d c (assoc_del p F)) = files_after_moves orig (ms ++ [(d, p)]) q.
Proof.
  intros HF Hp Hd Hs.
  assert (Hn : existsb (path_eqb p) (map snd ms) = false).
  { destruct (existsb _ _) eqn:E; [|reflexivity].
    apply existsb_exists in E as [x [Hx E]]; apply path_eqb_eq in E; subst x; contradiction. }
  split.
  - rewrite HF; unfold files_after_moves; rewrite last_source_none by exact Hd; rewrite Hn; exact Hp.
  - intros q; rewrite assoc_get_set, assoc_get_del; unfold files_after_moves.
    rewrite last_source_app; unfold last_source at 1; simpl.
    destruct (path_eqb q d) eqn:Eqd; simpl; [symmetry; exact Hp|].
    destruct (path_eqb q p) eqn:Eqp.
    + apply path_eqb_eq in Eqp; subst q.
      rewrite last_source_none by exact Hd.
      rewrite map_app, existsb_app; simpl; rewrite path_eqb_refl, orb_true_r; reflexivity.
    + rewrite HF; unfold files_after_moves.
      destruct (last_source ms q); [reflexivity|].
      rewrite map_app, existsb_app; simpl; rewrite Eqp, orb_false_r; reflexivity.
Qed.

Lemma apply_files_ok (orig : path -> option string) (base cd : path) (files : list path)
  (ms : list (path * path)) (st : St) :
  (forall q, file_at (fs st) q = files_after_moves orig ms q) ->
  (forall dp, In dp ms -> is_prefix base (fst dp) = true) ->
  is_prefix base cd = true ->
  NoDup (map snd ms ++ files) ->
  (forall p, In p files -> is_prefix base p = false /\ orig p <> None) ->
  is_dir (fs st) cd = true ->
  (forall p, In p files -> is_dir (fs st) (join cd (name p)) = false) ->
  exists st', for_each files (apply_file cd) st = Ret st' tt
    /\ fs_dirs (fs st') = fs_dirs (fs st)
    /\ forall q, file_at (fs st') q
                 = files_after_moves orig (ms ++ map (fun p => (join cd (name p), p)) files) q.
Proof.
  revert ms st; induction files as [|p files IH]; intros ms st HF Hms Hcd Hnd Hp Hdir Hdst.
  - exists st; split; [reflexivity|split; [reflexivity|]]; rewrite app_nil_r; exact HF.
  - destruct (Hp p (or_introl eq_refl)) as [Hpb Hpo].
    destruct (orig p) as [c|] eqn:Ec; [|contradiction].
    assert (Hdb : is_prefix base (join cd (name p)) = true) by (apply is_prefix_app; exact Hcd).
    assert (Hdp : forall dp, In dp ms -> fst dp <> p).
    { intros dp Hdp E; specialize (Hms dp Hdp); rewrite E in Hms; congruence. }
    assert (Hns : ~ In p (map snd ms)).
    { intros H; apply NoDup_remove_2 in Hnd; apply Hnd, in_or_app; left; exact H. }
    destruct (files_after_moves_step orig ms (fs_files (fs st)) (join cd (name p)) p c HF Ec Hdp Hns)
      as [HFp HF'].
    assert (Hm : apply_file cd p st
                 = Ret (mkSt (config st) (assoc_set p p (previous_state st))
                          (mkFS (assoc_set (join cd (name p)) c (assoc_del p (fs_files (fs st))))
                                (fs_dirs (fs st))) (stdout st)) tt).
    { rewrite apply_file_eq; erewrite move_ok; [reflexivity| | | |].
      - intros E; rewrite E in Hpb; congruence.
      - exact HFp.
      - exact (Hdst p (or_introl eq_refl)).
      - rewrite parent_join; exact Hdir. }
    destruct (IH (ms ++ [(join cd (name p), p)])
                 (mkSt (config st) (assoc_set p p (previous_state st))
                    (mkFS (assoc_set (join cd (name p)) c (assoc_del p (fs_files (fs st))))
                          (fs_dirs (fs st))) (stdout st)))
      as [st' [Hrun [Hd' HF'']]].
    + exact HF'.
    + intros dp Hin; apply in_app_or in Hin as [Hin|[<-|[]]]; [apply Hms; exact Hin|exact Hdb].
    + exact Hcd.
    + rewrite ?map_app, <- ?app_assoc; exact Hnd.
    + intros q Hq; apply Hp; right; exact Hq.
    + exact Hdir.
    + intros q Hq; apply Hdst; right; exact Hq.
    + exists st'; split; [|split].
      * cbn [for_each]; eapply bind_Ret_then; [exact Hm|exact Hrun].
      * rewrite Hd'; reflexivity.
      * intros q; rewrite HF'', <- app_assoc; reflexivity.
Qed.

Lemma apply_categories_ok (orig : path -> option string) (base : path) (plan : Plan)
  (ms : list (path * path)) (st : St) :
  (forall q, file_at (fs st) q = files_after_moves orig ms q) ->
  (forall dp, In dp ms -> is_prefix base (fst dp) = true /\ length (fst dp) = length base + 2) ->
  NoDup (map snd ms ++ concat (map snd plan)) ->
  (forall p, In p (concat (map snd plan)) -> is_prefix base p = false /\ orig p <> None) ->
  (forall c files q, In (c, files) plan -> In q (ancestors (join base c)) -> orig q = None) ->
  (forall c files p, In (c, files) plan -> In p files ->
     is_dir (fs st) (join (join base c) (name p)) = false) ->
  exists st', for_each plan (apply_category base) st = Ret st' tt
    /\ forall q, file_at (fs st') q = files_after_moves orig (ms ++ planned_moves plan base) q.
Proof.
  revert ms st; induction plan as [|[c files] plan IH]; intros ms st HF Hms Hnd Hp Hanc Hdst.
  - exists st; split; [reflexivity|]; unfold planned_moves; simpl; rewrite app_nil_r; exact HF.
  - assert (Hf : forall q, In q (ancestors (join base c)) -> is_file (fs st) q = false).
    { intros q Hq; unfold is_file; rewrite HF; unfold files_after_moves.
      rewrite last_source_none.
      - destruct (existsb _ _); [reflexivity|].
        rewrite (Hanc c files q (or_introl eq_refl) Hq); reflexivity.
      - intros dp Hdp E; destruct (Hms dp Hdp) as [_ Hl]; apply ancestors_length in Hq.
        unfold join in Hq; rewrite length_app in Hq; simpl in Hq; rewrite E in Hl; lia. }
    destruct (mkdir_parents_ok (join base c) st Hf) as [dirs' [Hmk Hdirs]].
    assert (Hnot : forall c' p, is_dir (fs st) (join (join base c') (name p)) = false ->
              existsb (path_eqb (join (join base c') (name p))) dirs' = false).
    { intros c' p H; apply (not_dir_after_mkdir dirs' (fs st) (join base c)); [exact Hdirs|exact H|].
      unfold join; rewrite !length_app; simpl; lia. }
    assert (Hcd : existsb (path_eqb (join base c)) dirs' = true).
    { rewrite Hdirs, ancestors_self; [apply orb_true_r|].
      unfold join; destruct base; discriminate. }
    simpl in Hnd.
    destruct (apply_files_ok orig base (join base c) files ms
                (mkSt (config st) (previous_state st) (mkFS (fs_files (fs st)) dirs') (stdout st)))
      as [st2 [Hrun [Hd2 HF2]]].
    + exact HF.
    + intros dp Hdp; apply Hms; exact Hdp.
    + unfold join; apply is_prefix_app, is_prefix_refl.
    + rewrite app_assoc in Hnd; apply NoDup_app_remove_r in Hnd; exact Hnd.
    + intros p Hin; apply Hp; simpl; apply in_or_app; left; exact Hin.
    + exact Hcd.
    + intros p Hin; apply Hnot, (Hdst c files p (or_introl eq_refl) Hin).
    + destruct (IH (ms ++ map (fun p => (join (join base c) (name p), p)) files) st2)
        as [st3 [Hrun3 HF3]].
      * exact HF2.
      * intros dp Hdp; apply in_app_or in Hdp as [Hdp|Hdp]; [apply Hms; exact Hdp|].
        apply in_map_iff in Hdp as [p [<- _]]; simpl; split.
        -- unfold join; rewrite <- app_assoc; apply is_prefix_app, is_prefix_refl.
        -- unfold join; rewrite !length_app; simpl; lia.
      * rewrite map_app, map_map; simpl; rewrite map_id, <- app_assoc; exact Hnd.
      * intros p Hin; apply Hp; simpl; apply in_or_app; right; exact Hin.
      * intros c' files' q Hin Hq; apply (Hanc c' files' q); [right; exact Hin|exact Hq].
      * intros c' files' p Hin Hp'; unfold is_dir; rewrite Hd2; simpl.
        apply Hnot, (Hdst c' files' p (or_intror Hin) Hp').
      * exists st3; split.
        -- cbn [for_each]; eapply bind_Ret_then; [|exact Hrun3].
           unfold apply_category; cbn [fst snd].
           eapply bind_Ret_then; [exact Hmk|exact Hrun].
        -- intros q; rewrite HF3; unfold planned_moves; cbn [map concat fst snd].
           rewrite <- app_assoc; reflexivity.
Qed.

(** C2, as the code does it: there is no disambiguation.  If the planned
    files are distinct regular files outside [base_output_dir], no category
    path is blocked by a regular file and no destination is an existing
    directory, [apply_reorganization] succeeds and each move overwrites its
    destination [base_output_dir/category/<basename>]: every destination
    holds the content of the last planned file sent to it, the planned
    sources are gone, and every other path is unchanged.  In particular, of
    two files of one category sharing a basename, the earlier one is never
    what ends at their common destination. *)
Theorem apply_same_basename_last_wins (plan : Plan) (base : path) (s : St) :
  NoDup (concat (map snd plan)) ->
  (forall p, In p (concat (map snd plan)) -> is_file (fs s) p = true /\ is_prefix base p = false) ->
  (forall c files q, In (c, files) plan -> In q (ancestors (join base c)) ->
     is_file (fs s) q = false) ->
  (forall c files p, In (c, files) plan -> In p files ->
     is_dir (fs s) (join (join base c) (name p)) = false) ->
  exists s',
    apply_reorganization plan base s = Ret s' tt
    /\ (forall q, file_at (fs s') q = files_after_moves (file_at (fs s)) (planned_moves plan base) q)
    /\ (forall c f1 p1 f2 p2 f3, In (c, f1 ++ p1 :: f2 ++ p2 :: f3) plan -> name p1 = name p2 ->
          last_source (planned_moves plan base) (join (join base c) (name p1)) <> Some p1).
Proof.
  intros Hnd Hp Hanc Hdst.
  destruct (apply_categories_ok (file_at (fs s)) base plan [] (mkSt (config s) [] (fs s) (stdout s)))
    as [s' [Hrun HF]].
  - intros q; reflexivity.
  - intros dp [].
  - exact Hnd.
  - intros p Hin; destruct (Hp p Hin) as [Hf Hb]; split; [exact Hb|].
    unfold is_file in Hf; destruct (file_at (fs s) p); [discriminate|discriminate Hf].
  - intros c files q Hin Hq; specialize (Hanc c files q Hin Hq); unfold is_file in Hanc.
    destruct (file_at (fs s) q); [discriminate|reflexivity].
  - exact Hdst.
  - exists s'; split; [|split].
    + unfold apply_reorganization; eapply bind_Ret_then; [reflexivity|exact Hrun].
    + exact HF.
    + intros c f1 p1 f2 p2 f3 Hin Hn.
      apply in_split in Hin as [P1 [P2 Hpl]].
      assert (Hpm : planned_moves plan base
        = (planned_moves P1 base ++ map (fun p => (join (join base c) (name p), p)) (f1 ++ [p1] ++ f2))
          ++ ((join (join base c) (name p2), p2)
              :: map (fun p => (join (join base c) (name p), p)) f3 ++ planned_moves P2 base)).
      { rewrite Hpl; unfold planned_moves.
        repeat progress (rewrite ?map_app, ?concat_app; cbn [map concat fst snd app]).
        repeat progress (rewrite <- ?app_assoc; cbn [app]); reflexivity. }
      assert (Hnp : ~ In p1 (p2 :: f3 ++ concat (map snd P2))).
      { rewrite Hpl, map_app, concat_app in Hnd; cbn [map concat snd] in Hnd.
        replace (concat (map snd P1) ++ (f1 ++ p1 :: f2 ++ p2 :: f3) ++ concat (map snd P2))
          with ((concat (map snd P1) ++ f1) ++ p1 :: (f2 ++ p2 :: f3 ++ concat (map snd P2))) in Hnd
          by (rewrite <- !app_assoc; cbn [app]; rewrite <- !app_assoc; reflexivity).
        apply NoDup_remove_2 in Hnd; intros H; apply Hnd, in_or_app; right; apply in_or_app; right.
        exact H. }
      rewrite Hpm, last_source_app.
      destruct (last_source ((join (join base c) (name p2), p2)
                   :: map (fun p => (join (join base c) (name p), p)) f3 ++ planned_moves P2 base)
                  (join (join base c) (name p1))) as [x|] eqn:E.
      * intros [= ->]; apply Hnp; apply last_source_In in E.
        apply (in_map snd) in E; cbn [map snd] in E.
        rewrite map_app, map_map, map_snd_planned_moves in E; cbn [snd] in E; rewrite map_id in E.
        exact E.
      * exfalso; revert E; apply (last_source_some _ _ (join (join base c) (name p2), p2));
          [left; reflexivity|simpl; rewrite Hn; reflexivity].
Qed.

Lemma apply_same_basename_last_wins_witness :
  exists s',
    apply_reorganization ex_collide_plan ["out"] (mkSt (mkConfig []) [] ex_collide_fs [])
    = Ret s' tt
    /\ (forall q, file_at (fs s') q
                  = files_after_moves (file_at ex_collide_fs) (planned_moves ex_collide_plan ["out"]) q)
    /\ (forall c f1 p1 f2 p2 f3, In (c, f1 ++ p1 :: f2 ++ p2 :: f3) ex_collide_plan ->
          name p1 = name p2 ->
          last_source (planned_moves ex_collide_plan ["out"]) (join (join ["out"] c) (name p1))
          <> Some p1).
Proof.
  apply (apply_same_basename_last_wins ex_collide_plan ["out"] (mkSt (mkConfig []) [] ex_collide_fs [])).
  - cbn; apply NoDup_cons; [simpl; intros [H|[]]; discriminate|].
    apply NoDup_cons; [intros []|apply NoDup_nil].
  - intros p Hp; simpl in Hp; destruct Hp as [<-|[<-|[]]]; split; reflexivity.
  - intros c files q [Heq|[]] Hq; injection Heq as <- <-; simpl in Hq.
    destruct Hq as [<-|[<-|[]]]; reflexivity.
  - intros c files p [Heq|[]] Hp; injection Heq as <- <-; simpl in Hp.
    destruct Hp as [<-|[<-|[]]]; reflexivity.
Defined.

(** ** A failing move during apply *)

Definition ex_partial_fs : FS :=
  mkFS [(["s"; "a.txt"], "kept")] [["s"]; ["out"]].

Definition ex_partial_plan : Plan := [("Docs", [["s"; "missing.txt"]; ["s"; "a.txt"]])].

(** C3 is refuted: the move of the missing [/s/missing.txt] raises out of
    [apply_reorganization]; [/s/a.txt] is never moved, and the ledger holds
    an entry for the move that failed. *)
Lemma failed_move_aborts_apply :
  apply_reorganization ex_partial_plan ["out"] (mkSt (mkConfig []) [] ex_partial_fs [])
  = Raise (mkSt (mkConfig []) [(["s"; "missing.txt"], ["s"; "missing.txt"])]
             (mkFS [(["s"; "a.txt"], "kept")] [["s"]; ["out"]; ["out"; "Docs"]]) [])
          (FileNotFoundError ["s"; "missing.txt"]).
Proof. vm_compute; reflexivity. Qed.

Lemma for_each_app {A} (l1 l2 : list A) (body : A -> M unit) (s : St) :
  for_each (l1 ++ l2) body s = bind (for_each l1 body) (fun _ => for_each l2 body) s.
Proof.
  revert s; induction l1 as [|x l1 IH]; intros s; simpl; [reflexivity|].
  unfold bind at 1 2 3; destruct (body x s); [apply IH|reflexivity].
Qed.

Lemma for_each_raise {A} (l : list A) (body : A -> M unit) (s s' : St) (e : exn) :
  for_each l body s = Raise s' e ->
  exists pre x post s1,
    l = pre ++ x :: post /\ for_each pre body s = Ret s1 tt /\ body x s1 = Raise s' e.
Proof.
  revert s; induction l as [|x l IH]; intros s H; simpl in H; [discriminate|].
  unfold bind in H; destruct (body x s) as [s1 []|s1 e1] eqn:E.
  - destruct (IH s1 H) as (pre & y & post & s2 & -> & H1 & H2).
    exists (x :: pre), y, post, s2; split; [reflexivity|split; [|exact H2]].
    simpl; unfold bind; rewrite E; exact H1.
  - injection H as <- <-.
    exists [], x, l, s; split; [reflexivity|split; [reflexivity|exact E]].
Qed.

(** [shutil.move] raises before it changes anything. *)
Lemma move_raise_state (src dst : path) (s s' : St) (e : exn) :
  move src dst s = Raise s' e -> s' = s.
Proof.
  intros H; unfold move, rename, bind, get, ret, raise, modify_fs in H; simpl in H.
  repeat match type of H with
         | context [if ?b then _ else _] => destruct b
         | context [match ?x with Some _ => _ | None => _ end] => destruct x
         end; congruence.
Qed.

(** [mkdir(parents=True)] that raises has created directories only. *)
Lemma mkdir_parents_raise (d : path) (s s' : St) (e : exn) :
  mkdir_parents d s = Raise s' e ->
  previous_state s' = previous_state s /\ fs_files (fs s') = fs_files (fs s).
Proof.
  unfold mkdir_parents; generalize (ancestors d) as L; intros L.
  revert s; induction L as [|x L IH]; intros s H; simpl in H; [discriminate|].
  unfold bind, get, raise, ret, modify_fs in H.
  destruct (is_file (fs s) x); simpl in H.
  - injection H as <- <-; split; reflexivity.
  - destruct (is_dir (fs s) x); simpl in H; [exact (IH _ H)|exact (IH _ H)].
Qed.

(** C3, as the code does it: nothing is reported per file.  When
    [apply_reorganization] raises, the exception is that of the first step
    that fails, creating a category directory or moving a file, and it
    propagates out of the call: the plan splits at that step, every earlier
    step is done (the state is the one a successful apply of the steps
    before it reaches), no later step is attempted, and the ledger holds the
    entries of the files moved before it plus, for a failing move, the
    failing file's own entry, written before the move. *)
Theorem apply_failure_propagates (plan : Plan) (base : path) (s s' : St) (e : exn) :
  apply_reorganization plan base s = Raise s' e ->
  (exists pre c files post s1,
     plan = pre ++ (c, files) :: post
     /\ apply_reorganization pre base s = Ret s1 tt
     /\ mkdir_parents (join base c) s1 = Raise s' e
     /\ previous_state s' = ledger_of_plan pre
     /\ fs_files (fs s') = fs_files (fs s1))
  \/ (exists pre c done p rest post s1,
     plan = pre ++ (c, done ++ p :: rest) :: post
     /\ apply_reorganization (pre ++ [(c, done)]) base s = Ret s1 tt
     /\ s' = mkSt (config s1) (assoc_set p p (previous_state s1)) (fs s1) (stdout s1)
     /\ previous_state s' = ledger_of_plan (pre ++ [(c, done ++ [p])])
     /\ move p (join (join base c) (name p)) s' = Raise s' e).
Proof.
  intros H.
  change (for_each plan (apply_category base) (mkSt (config s) [] (fs s) (stdout s)) = Raise s' e)
    in H.
  apply for_each_raise in H as (pre & [c files] & post & s1 & -> & H1 & H2).
  assert (Happ : apply_reorganization pre base s = Ret s1 tt).
  { unfold apply_reorganization; eapply bind_Ret_then; [reflexivity|exact H1]. }
  unfold apply_category in H2; cbn [fst snd] in H2.
  unfold bind at 1 in H2.
  destruct (mkdir_parents (join base c) s1) as [s2 []|s2 e2] eqn:Emk.
  - right.
    apply for_each_raise in H2 as (done & p & rest & s3 & -> & H3 & H4).
    assert (Happ' : apply_reorganization (pre ++ [(c, done)]) base s = Ret s3 tt).
    { unfold apply_reorganization; eapply bind_Ret_then; [reflexivity|].
      rewrite for_each_app; eapply bind_Ret_then; [exact H1|].
      cbn [for_each]; eapply bind_Ret_then; [|reflexivity].
      unfold apply_category; cbn [fst snd].
      eapply bind_Ret_then; [exact Emk|exact H3]. }
    rewrite apply_file_eq in H4.
    pose proof (move_raise_state _ _ _ _ _ H4) as Es'.
    exists pre, c, done, p, rest, post, s3.
    split; [reflexivity|split; [exact Happ'|split; [exact Es'|split]]].
    + rewrite Es'; cbn [previous_state].
      rewrite (apply_reorganization_prev _ _ _ _ Happ'); unfold ledger_of_plan.
      rewrite !map_app, !concat_app; cbn [map concat snd].
      rewrite !app_nil_r, ?app_assoc, !fold_left_app; reflexivity.
    + subst s'; exact H4.
  - left; injection H2 as <- <-.
    exists pre, c, files, post, s1.
    destruct (mkdir_parents_raise _ _ _ _ Emk) as [Hp Hf].
    split; [reflexivity|split; [exact Happ|split; [exact Emk|split]]].
    + rewrite Hp; exact (apply_reorganization_prev _ _ _ _ Happ).
    + exact Hf.
Qed.

Lemma apply_failure_propagates_witness :
  let s0 := mkSt (mkConfig []) [] ex_partial_fs [] in
  let s' := mkSt (mkConfig []) [(["s"; "missing.txt"], ["s"; "missing.txt"])]
              (mkFS [(["s"; "a.txt"], "kept")] [["s"]; ["out"]; ["out"; "Docs"]]) [] in
  let e := FileNotFoundError ["s"; "missing.txt"] in
  (exists pre c files post s1,
     ex_partial_plan = pre ++ (c, files) :: post
     /\ apply_reorganization pre ["out"] s0 = Ret s1 tt
     /\ mkdir_parents (join ["out"] c) s1 = Raise s' e
     /\ previous_state s' = ledger_of_plan pre
     /\ fs_files (fs s') = fs_files (fs s1))
  \/ (exists pre c done p rest post s1,
     ex_partial_plan = pre ++ (c, done ++ p :: rest) :: post
     /\ apply_reorganization (pre ++ [(c, done)]) ["out"] s0 = Ret s1 tt
     /\ s' = mkSt (config s1) (assoc_set p p (previous_state s1)) (fs s1) (stdout s1)
     /\ previous_state s' = ledger_of_plan (pre ++ [(c, done ++ [p])])
     /\ move p (join (join ["out"] c) (name p)) s' = Raise s' e).
Proof.
  intros s0 s' e.
  apply (apply_failure_propagates ex_partial_plan ["out"] s0 s' e).
  vm_compute; reflexivity.
Defined.

(** ** Classification and analysis *)

Module AnalyzerFacts.
Import Analyzer.

Lemma dget_dset {V} (k k' : string) (v : V) (d : list (string * V)) :
  dget k (dset k' v d) = if String.eqb k k' then Some v else dget k d.
Proof.
  induction d as [|[k0 v0] d IH]; simpl.
  - destruct (String.eqb k k'); reflexivity.
  - destruct (String.eqb k' k0) eqn:E1; simpl.
    + apply String.eqb_eq in E1; subst k0. destruct (String.eqb k k'); reflexivity.
    + rewrite IH. destruct (String.eqb k k0) eqn:E2; [|reflexivity].
      apply String.eqb_eq in E2; subst k0.
      destruct (String.eqb k k') eqn:E3; [|reflexivity].
      apply String.eqb_eq in E3; subst; rewrite String.eqb_refl in E1; discriminate.
Qed.

Lemma existsb_eqb_In (c : string) (l : list string) :
  existsb (String.eqb c) l = true <-> In c l.
Proof.
  rewrite existsb_exists; split.
  - intros [x [Hx E]]; apply String.eqb_eq in E; subst; exact Hx.
  - intros H; exists c; split; [exact H | apply String.eqb_refl].
Qed.

Section Facts.
Context {Mo : Models}.

Lemma final_scores_fold (cats : list string) (classifications semantic : list (string * score))
  (thr : score) (acc : list (string * score)) (c : string) :
  let g := fun x => combined_score (dget_or x classifications zero_score)
                                    (dget_or x semantic zero_score) in
  dget c (fold_left (fun fin category =>
      let final_score := g category in
      if fge final_score thr then dset category final_score fin else fin) cats acc)
  = if existsb (String.eqb c) cats && fge (g c) thr then Some (g c) else dget c acc.
Proof.
  intros g; revert acc; induction cats as [|x cats IH]; intros acc; simpl; [reflexivity|].
  rewrite IH.
  destruct (String.eqb c x) eqn:E; simpl.
  - apply String.eqb_eq in E; subst x.
    destruct (fge (g c) thr) eqn:Hg; rewrite ?andb_true_r, ?andb_false_r.
    + rewrite dget_dset, String.eqb_refl; destruct (existsb _ _); reflexivity.
    + reflexivity.
  - destruct (existsb (String.eqb c) cats && fge (g c) thr); [reflexivity|].
    destruct (fge (g x) thr); [|reflexivity].
    rewrite dget_dset, E; reflexivity.
Qed.

Lemma semantic_scores_ok (file_content : string) (sem : string -> score)
  (cats : list string) (acc : list (string * score)) :
  (forall c, In c cats -> nlp_similarity file_content c = Some (sem c)) ->
  exists res, semantic_scores file_content cats acc = Some res
    /\ forall c, dget c res = if existsb (String.eqb c) cats then Some (sem c) else dget c acc.
Proof.
  revert acc; induction cats as [|x cats IH]; intros acc H; simpl.
  - exists acc; split; reflexivity.
  - rewrite (H x (or_introl eq_refl)).
    destruct (IH (dset x (sem x) acc)) as [res [Hr Hd]];
      [intros c Hc; apply H; right; exact Hc|].
    exists res; split; [exact Hr|].
    intros c; rewrite Hd, dget_dset.
    destruct (String.eqb c x) eqn:E; simpl.
    + apply String.eqb_eq in E; subst; destruct (existsb _ _); reflexivity.
    + reflexivity.
Qed.

(** C6: when the two models answer, [classify_file_purpose] returns exactly
    the purpose categories whose combined score
    [0.7 * zero_shot_score + 0.3 * semantic_score] is [>=] the threshold,
    each with that score: a score equal to the threshold is kept, one below
    it (for which [>=] fails) is dropped. *)
Theorem classify_file_purpose_threshold (a : Analyzer) (file_content : string)
  (thr : score) (labels : list string) (scores : list score) (sem : string -> score) :
  zero_shot file_content (purpose_categories a) = Some (labels, scores) ->
  (forall c, In c (purpose_categories a) -> nlp_similarity file_content c = Some (sem c)) ->
  forall c v,
    dget c (classify_file_purpose a file_content thr) = Some v <->
    In c (purpose_categories a)
    /\ v = combined_score (dget_or c (dict_zip labels scores []) zero_score) (sem c)
    /\ fge v thr = true.
Proof.
  intros Hz Hs c v.
  destruct (semantic_scores_ok file_content sem (purpose_categories a) [] Hs) as [res [Hr Hd]].
  unfold classify_file_purpose; rewrite Hz, Hr; unfold final_scores.
  rewrite final_scores_fold.
  assert (Hsem : In c (purpose_categories a) -> dget_or c res zero_score = sem c).
  { intros Hin; unfold dget_or; rewrite Hd.
    apply existsb_eqb_In in Hin; rewrite Hin; reflexivity. }
  destruct (existsb (String.eqb c) (purpose_categories a)) eqn:Ein; simpl.
  - apply existsb_eqb_In in Ein; rewrite (Hsem Ein).
    destruct (fge _ thr) eqn:Hg; split.
    + intros [= <-]; auto.
    + intros (_ & -> & _); reflexivity.
    + discriminate.
    + intros (_ & -> & H); congruence.
  - split; [discriminate|].
    intros (Hin & _); apply existsb_eqb_In in Hin; congruence.
Qed.

Lemma analyze_file_path (a : Analyzer) (w : World) (p : path) :
  an_path (fst (analyze_file a w p)) = p
  /\ an_metadata (fst (analyze_file a w p)) = fst (extract_metadata w p).
Proof.
  unfold analyze_file; destruct (extract_metadata w p); destruct (w_read w p); split; reflexivity.
Qed.

Lemma process_loop_results (a : Analyzer) (w : World) (output_dir : option path)
  (entries : list path) (acc : list Analysis) (log : list string) :
  exists log', process_loop a w output_dir entries acc log
    = (acc ++ map (fun p => fst (analyze_file a w p)) (filter (w_is_file w) entries), log ++ log').
Proof.
  revert acc log; induction entries as [|p entries IH]; intros acc log; simpl.
  - exists []; rewrite !app_nil_r; reflexivity.
  - destruct (w_is_file w p); simpl.
    + destruct (analyze_file a w p) as [fa l] eqn:E.
      assert (Hx : exists x, match output_dir with
          | Some d => if w_write_ok w (join d (stem p ++ "_analysis.json"))
                      then log ++ l else log ++ l ++ ["Error analyzing file"]
          | None => log ++ l end = log ++ x).
      { destruct output_dir as [d|]; [destruct (w_write_ok _ _)|]; eexists; reflexivity. }
      destruct Hx as [x Hx]; rewrite Hx.
      destruct (IH (acc ++ [fa]) (log ++ x)) as [log' Hl].
      exists (x ++ log'); rewrite Hl, <- !app_assoc; reflexivity.
    + apply IH.
Qed.

(** Once [FileAnalyzer()] and [output_dir.mkdir] have succeeded,
    [process_files] returns the analysis of every regular file listed, in
    order, after the lines [FileAnalyzer()] printed. *)
Lemma process_files_ok (analyzer_of : CategoriesConfig -> Analyzer) (w : World)
  (directory : path) (output_dir : option path) :
  w_models_ok w = true ->
  match output_dir with Some d => w_mkdir_ok w d = true | None => True end ->
  let a := analyzer_of (fst (load_classification_config (w_categories w))) in
  exists log, process_files analyzer_of w directory output_dir
    = (Some (map (fun p => fst (analyze_file a w p)) (filter (w_is_file w) (w_rglob w directory))),
       snd (file_analyzer_init w) ++ log).
Proof.
  intros Hm Hout a; subst a; unfold process_files, file_analyzer_init.
  destruct (load_classification_config (w_categories w)) as [cfg log1].
  lazy beta iota zeta; rewrite Hm.
  destruct (process_loop_results (analyzer_of cfg) w output_dir (w_rglob w directory) []
              (log1 ++ (if w_spacy_installed w then [] else ["Downloading spaCy model..."])))
    as [l Hl].
  exists l; destruct output_dir as [d|]; [rewrite Hout|]; rewrite Hl; reflexivity.
Qed.

(** When [FileAnalyzer()] raises, [process_files] raises before anything
    else, after the lines [FileAnalyzer()] printed. *)
Lemma process_files_models_fail (analyzer_of : CategoriesConfig -> Analyzer) (w : World)
  (directory : path) (output_dir : option path) :
  w_models_ok w = false ->
  process_files analyzer_of w directory output_dir = (None, snd (file_analyzer_init w)).
Proof.
  intros Hm; unfold process_files, file_analyzer_init.
  destruct (load_classification_config (w_categories w)) as [cfg log1].
  lazy beta iota zeta; rewrite Hm; reflexivity.
Qed.

(** When [output_dir.mkdir] raises, [process_files] raises after
    [FileAnalyzer()] and before the loop. *)
Lemma process_files_mkdir_fail (analyzer_of : CategoriesConfig -> Analyzer) (w : World)
  (directory d : path) :
  w_models_ok w = true -> w_mkdir_ok w d = false ->
  process_files analyzer_of w directory (Some d) = (None, snd (file_analyzer_init w)).
Proof.
  intros Hm Hd; unfold process_files, file_analyzer_init.
  destruct (load_classification_config (w_categories w)) as [cfg log1].
  lazy beta iota zeta; rewrite Hm, Hd; reflexivity.
Qed.


(** C4, as the code does it: a failed [stat] is caught inside
    [extract_metadata], which prints the error and returns the empty dict
    instead of raising; [analyze_file] still produces a result for that
    file, and once [FileAnalyzer()] and [output_dir.mkdir] have succeeded,
    [process_files] returns one result per file of the listing, in order:
    the unreadable file is neither skipped nor fatal, it is reported with
    empty metadata. *)
Theorem unreadable_file_not_skipped (analyzer_of : CategoriesConfig -> Analyzer) (w : World)
  (directory : path) (output_dir : option path) :
  w_models_ok w = true ->
  match output_dir with Some d => w_mkdir_ok w d = true | None => True end ->
  (forall p, w_stat w p = None -> extract_metadata w p = (None, ["Error extracting metadata"]))
  /\ exists results log,
       process_files analyzer_of w directory output_dir = (Some results, log)
       /\ map an_path results = filter (w_is_file w) (w_rglob w directory)
       /\ Forall (fun r => w_stat w (an_path r) = None -> an_metadata r = None) results.
Proof.
  intros Hm Hout; split.
  - intros p Hp; unfold extract_metadata; rewrite Hp; reflexivity.
  - destruct (process_files_ok analyzer_of w directory output_dir Hm Hout) as [log Hl].
    set (a := analyzer_of (fst (load_classification_config (w_categories w)))) in Hl.
    eexists; eexists; split; [exact Hl|split].
    + rewrite map_map, (map_ext _ (fun x => x)) by (intros p; apply analyze_file_path).
      apply map_id.
    + apply Forall_forall; intros r Hr; apply in_map_iff in Hr as [p [<- _]].
      destruct (analyze_file_path a w p) as [Hp Hmd]; rewrite Hp, Hmd.
      intros Hs; unfold extract_metadata; rewrite Hs; reflexivity.
Qed.

End Facts.
End AnalyzerFacts.

(** ** Concrete analyzer runs, with binary64 floats *)

Definition ex_sem (c : string) : float := if String.eqb c "Work" then 0.5%float else 0.2%float.

(** Stand-in models: zero-shot score [0.5] for every label, semantic
    similarity [0.5] for ["Work"] and [0.2] otherwise. *)
Definition ex_models : Analyzer.Models := {|
  Analyzer.score := float;
  Analyzer.fmul := PrimFloat.mul;
  Analyzer.fadd := PrimFloat.add;
  Analyzer.fge := fun x y => PrimFloat.leb y x;
  Analyzer.w_zero_shot := 0.7%float;
  Analyzer.w_semantic := 0.3%float;
  Analyzer.zero_score := 0%float;
  Analyzer.default_threshold := 0.5%float;
  Analyzer.zero_shot := fun _ cats => Some (cats, map (fun _ => 0.5%float) cats);
  Analyzer.nlp_similarity := fun _ c => Some (ex_sem c)
|}.

Definition ex_analyzer : Analyzer.Analyzer := Analyzer.mkAnalyzer ["Work"; "Leisure"].

(** The analyzer built from categories whatever they hold. *)
Definition ex_analyzer_of (cfg : Analyzer.CategoriesConfig) : Analyzer.Analyzer := ex_analyzer.

(** ["Work"] scores [0.7 * 0.5 + 0.3 * 0.5], exactly [0.5] in binary64, and
    is kept at threshold [0.5]; ["Leisure"] scores [0.41] and is dropped. *)
Lemma classify_file_purpose_threshold_witness :
  Analyzer.dget "Work" (@Analyzer.classify_file_purpose ex_models ex_analyzer "text" 0.5%float)
    = Some 0.5%float
  /\ forall v, Analyzer.dget "Leisure"
                 (@Analyzer.classify_file_purpose ex_models ex_analyzer "text" 0.5%float)
               <> Some v.
Proof.
  split.
  - apply (proj2 (@AnalyzerFacts.classify_file_purpose_threshold ex_models ex_analyzer "text"
                    0.5%float ["Work"; "Leisure"] [0.5%float; 0.5%float] ex_sem
                    eq_refl (fun c _ => eq_refl) "Work" 0.5%float)).
    split; [left; reflexivity | split; vm_compute; reflexivity].
  - intros v H.
    apply (proj1 (@AnalyzerFacts.classify_file_purpose_threshold ex_models ex_analyzer "text"
                    0.5%float ["Work"; "Leisure"] [0.5%float; 0.5%float] ex_sem
                    eq_refl (fun c _ => eq_refl) "Leisure" v)) in H as (_ & -> & Hge).
    vm_compute in Hge; discriminate.
Defined.

(** A directory [/d] with [x.txt], whose [stat] fails, and [y.txt]. *)
Definition ex_world : Analyzer.World := {|
  Analyzer.w_categories := Parsed (JObj [("purpose_categories", Analyzer.jstrs ["Work"; "Leisure"])]);
  Analyzer.w_spacy_installed := true;
  Analyzer.w_models_ok := true;
  Analyzer.w_stat := fun p =>
    if path_eqb p ["d"; "x.txt"] then None
    else Some (Analyzer.mkStats 10 1.0%float 1.0%float 1000000000);
  Analyzer.w_read := fun _ => Some "hello";
  Analyzer.w_rglob := fun _ => [["d"; "x.txt"]; ["d"; "y.txt"]];
  Analyzer.w_is_file := fun _ => true;
  Analyzer.w_mkdir_ok := fun _ => true;
  Analyzer.w_write_ok := fun _ => true
|}.

(** C4's failing input: no [MetadataError] is raised for [/d/x.txt]
    ([extract_metadata] returns the empty dict), and the file is not skipped:
    [process_files] reports it, with empty metadata. *)
Example unreadable_file_reported_not_skipped :
  fst (Analyzer.extract_metadata ex_world ["d"; "x.txt"]) = None
  /\ match fst (@Analyzer.process_files ex_models ex_analyzer_of ex_world ["d"] None) with
     | Some results =>
         map Analyzer.an_path results = [["d"; "x.txt"]; ["d"; "y.txt"]]
         /\ map (fun r => match Analyzer.an_metadata r with Some _ => true | None => false end)
                results = [false; true]
     | None => False
     end.
Proof. split; vm_compute; [reflexivity | split; reflexivity]. Qed.

Lemma unreadable_file_not_skipped_witness :
  (forall p, Analyzer.w_stat ex_world p = None ->
     Analyzer.extract_metadata ex_world p = (None, ["Error extracting metadata"]))
  /\ exists results log,
       @Analyzer.process_files ex_models ex_analyzer_of ex_world ["d"] None = (Some results, log)
       /\ map Analyzer.an_path results
          = filter (Analyzer.w_is_file ex_world) (Analyzer.w_rglob ex_world ["d"])
       /\ Forall (fun r => Analyzer.w_stat ex_world (Analyzer.an_path r) = None ->
                           Analyzer.an_metadata r = None) results.
Proof.
  apply (@AnalyzerFacts.unreadable_file_not_skipped ex_models ex_analyzer_of ex_world ["d"] None
           eq_refl I).
Defined.

(** * Further properties of the code *)

(** A successful [apply_reorganization] starts from an empty ledger, whatever
    was recorded before, and ends with exactly one entry per planned file,
    in plan order, each mapping the file's original path to itself (not to
    its destination). *)
Theorem apply_reorganization_ledger (plan : Plan) (base : path) (s s' : St) :
  apply_reorganization plan base s = Ret s' tt ->
  previous_state s' = ledger_of_plan plan
  /\ (forall k v, In (k, v) (previous_state s') -> k = v /\ In k (concat (map snd plan)))
  /\ (forall p, In p (concat (map snd plan)) -> assoc_get p (previous_state s') = Some p).
Proof.
  intros H; assert (Hl := apply_reorganization_prev plan base s s' H).
  split; [exact Hl|split].
  - intros k v Hin; rewrite Hl in Hin; unfold ledger_of_plan in Hin.
    apply fold_assoc_set_In in Hin as [[]|Hin]; exact Hin.
  - intros p Hp; rewrite Hl; unfold ledger_of_plan; rewrite fold_assoc_set_get.
    replace (existsb (path_eqb p) (concat (map snd plan))) with true; [reflexivity|].
    symmetry; apply existsb_exists; exists p; split; [exact Hp | apply path_eqb_refl].
Qed.

(** A successful [rollback] always leaves the ledger empty, so a second
    [rollback] only prints ["No previous state to rollback."]. *)
Theorem rollback_clears_ledger (base : path) (s s' : St) :
  rollback base s = Ret s' tt ->
  previous_state s' = []
  /\ rollback base s' = Ret (mkSt (config s') [] (fs s') (stdout s' ++ ["No previous state to rollback."])) tt.
Proof.
  intros H.
  assert (Hp : previous_state s' = []).
  { unfold rollback in H; apply bind_inv in H as (s0 & a & E & H).
    inversion E; subst s0 a; clear E.
    destruct (previous_state s) as [|kv prev] eqn:Ep.
    - apply keeps_prev_print in H; rewrite H; exact Ep.
    - apply bind_inv in H as (s1 & [] & _ & H).
      apply bind_inv in H as (s2 & [] & E2 & H).
      inversion E2; subst s2; clear E2.
      apply bind_inv in H as (s3 & entries & E3 & H).
      apply keeps_prev_iterdir in E3.
      assert (K : keeps_prev (for_each entries (fun category_dir =>
        s'0 <- get ;;
        if is_dir (fs s'0) category_dir then
          match children (fs s'0) category_dir with
          | [] => rmdir category_dir
          | _ => ret tt
          end
        else ret tt))).
      { apply keeps_prev_for_each; intros q; keeps; apply keeps_prev_rmdir. }
      rewrite (K _ _ _ H), E3; reflexivity. }
  split; [exact Hp|].
  unfold rollback; eapply bind_Ret_then; [reflexivity|]; rewrite Hp.
  unfold print; rewrite Hp; reflexivity.
Qed.

(** ** Shape of a generated plan *)

Section Grouping.

Variables (cfg : Config) (f : FS).

Let step := fun d file_path =>
  if is_file f file_path then plan_append (categorize_file cfg file_path) file_path d else d.

Lemma plan_append_keys (c : string) (p : path) (d : Plan) :
  map fst (plan_append c p d) = if existsb (String.eqb c) (map fst d) then map fst d else map fst d ++ [c].
Proof.
  induction d as [|[k l] d IH]; simpl; [reflexivity|].
  rewrite String.eqb_sym; destruct (String.eqb k c) eqn:E; simpl; [reflexivity|].
  rewrite IH; destruct (existsb _ _); reflexivity.
Qed.

Lemma plan_append_nodup (c : string) (p : path) (d : Plan) :
  NoDup (map fst d) -> NoDup (map fst (plan_append c p d)).
Proof.
  intros H; rewrite plan_append_keys.
  destruct (existsb (String.eqb c) (map fst d)) eqn:E; [exact H|].
  apply NoDup_app; [exact H | constructor; [intros []|constructor] |].
  intros x Hx [<-|[]].
  assert (existsb (String.eqb c) (map fst d) = true)
    by (apply existsb_exists; exists c; split; [exact Hx | apply String.eqb_refl]).
  congruence.
Qed.

Lemma plan_append_nonempty (c : string) (p : path) (d : Plan) :
  Forall (fun e => snd e <> []) d -> Forall (fun e => snd e <> []) (plan_append c p d).
Proof.
  induction 1 as [|[k l] d Hl Hd IH]; simpl.
  - constructor; [discriminate | constructor].
  - destruct (String.eqb c k); constructor; simpl; auto.
    intros E; apply app_eq_nil in E as [_ E]; discriminate.
Qed.

Lemma plan_append_files (c : string) (p : path) (d : Plan) :
  Permutation (concat (map snd (plan_append c p d))) (concat (map snd d) ++ [p]).
Proof.
  induction d as [|[k l] d IH]; simpl; [reflexivity|].
  destruct (String.eqb c k); simpl; rewrite <- !app_assoc; apply Permutation_app_head.
  - apply Permutation_app_comm.
  - exact IH.
Qed.

Lemma plan_append_In (c c0 : string) (p p0 : path) (l0 : list path) (d : Plan) :
  In (c0, l0) (plan_append c p d) -> In p0 l0 ->
  (c0 = c /\ p0 = p) \/ exists l, In (c0, l) d /\ In p0 l.
Proof.
  induction d as [|[k l] d IH]; simpl.
  - intros [[= <- <-]|[]] [<-|[]]; left; auto.
  - destruct (String.eqb c k) eqn:E; simpl.
    + apply String.eqb_eq in E; subst k.
      intros [[= <- <-]|H] Hp.
      * apply in_app_or in Hp as [Hp|[<-|[]]]; [right; exists l; auto | left; auto].
      * right; exists l0; auto.
    + intros [[= <- <-]|H] Hp; [right; exists l; auto|].
      destruct (IH H Hp) as [H'|(l' & H1 & H2)]; [left; exact H' | right; exists l'; auto].
Qed.

Lemma fold_step_nodup (entries : list path) (d : Plan) :
  NoDup (map fst d) -> NoDup (map fst (fold_left step entries d)).
Proof.
  revert d; induction entries as [|q entries IH]; intros d H; simpl; [exact H|].
  apply IH; unfold step; destruct (is_file f q); [apply plan_append_nodup|]; exact H.
Qed.

Lemma fold_step_nonempty (entries : list path) (d : Plan) :
  Forall (fun e => snd e <> []) d -> Forall (fun e => snd e <> []) (fold_left step entries d).
Proof.
  revert d; induction entries as [|q entries IH]; intros d H; simpl; [exact H|].
  apply IH; unfold step; destruct (is_file f q); [apply plan_append_nonempty|]; exact H.
Qed.

Lemma fold_step_files (entries : list path) (d : Plan) :
  Permutation (concat (map snd (fold_left step entries d)))
              (concat (map snd d) ++ filter (is_file f) entries).
Proof.
  revert d; induction entries as [|q entries IH]; intros d; simpl.
  - rewrite app_nil_r; reflexivity.
  - rewrite IH; unfold step; destruct (is_file f q); simpl; [|reflexivity].
    rewrite plan_append_files, <- app_assoc; reflexivity.
Qed.

Lemma fold_step_In (entries : list path) (d : Plan) (c : string) (l : list path) (p : path) :
  In (c, l) (fold_left step entries d) -> In p l ->
  (exists l', In (c, l') d /\ In p l')
  \/ (c = categorize_file cfg p /\ is_file f p = true /\ In p entries).
Proof.
  revert d l; induction entries as [|q entries IH]; intros d l Hin Hp; simpl in Hin.
  - left; exists l; auto.
  - destruct (IH _ _ Hin Hp) as [(l' & H1 & H2)|(? & ? & ?)]; [|right; simpl; auto].
    unfold step in H1; destruct (is_file f q) eqn:Hq; [|left; exists l'; auto].
    destruct (plan_append_In _ _ _ _ _ _ H1 H2) as [[Hc Hp']|H3]; [|left; exact H3].
    subst c p; right; simpl; auto.
Qed.

End Grouping.

(** The plan [generate_folder_hierarchy] returns is a dictionary with no
    repeated category and no empty file list, and its lists together hold
    exactly the regular files that [rglob] lists under the source
    directory, each once (directories are left out). *)
Theorem generated_plan_shape (source_directory : path) (s : St) :
  NoDup (map fst (plan_of source_directory s))
  /\ Forall (fun e => snd e <> []) (plan_of source_directory s)
  /\ Permutation (concat (map snd (plan_of source_directory s)))
                 (filter (is_file (fs s)) (rglob (fs s) source_directory)).
Proof.
  unfold plan_of; simpl; unfold group_files.
  split; [apply fold_step_nodup; constructor|split].
  - apply fold_step_nonempty; constructor.
  - eapply Permutation_trans; [apply fold_step_files|]; reflexivity.
Qed.

(** Every file listed in a generated plan is a regular file strictly below
    the source directory, and it is listed under the category
    [_categorize_file] gives it: either ["Uncategorized"] or the target of a
    configured rule whose conditions the file meets. *)
Theorem generated_plan_categories (source_directory : path) (s : St)
  (c : string) (l : list path) (p : path) :
  In (c, l) (plan_of source_directory s) -> In p l ->
  is_file (fs s) p = true
  /\ firstn (length source_directory) p = source_directory
  /\ length source_directory < length p
  /\ c = categorize_file (config s) p
  /\ (c = "Uncategorized"
      \/ exists r, In r (hierarchy_rules (config s))
                   /\ check_rule_conditions p r = true /\ c = rule_target r).
Proof.
  unfold plan_of; simpl; unfold group_files; intros Hin Hp.
  destruct (fold_step_In _ _ _ _ _ _ _ Hin Hp) as [(l' & [] & _)|(Hc & Hf & Hr)].
  unfold rglob in Hr; apply filter_In in Hr as [_ Hr].
  apply andb_prop in Hr as [Hlen Hpre].
  apply Nat.ltb_lt in Hlen; apply path_eqb_eq in Hpre.
  do 4 (split; [assumption|]).
  symmetry in Hc; unfold categorize_file in Hc.
  apply categorize_rules_spec in Hc as [(pre & r & post & Heq & _ & Hm & Ht)|[_ Hu]].
  - right; exists r; split; [rewrite Heq; apply in_or_app; right; left; reflexivity|auto].
  - left; exact Hu.
Qed.

Lemma generated_plan_categories_witness :
  In ("Documents", [["src"; "report.txt"]]) (plan_of ["src"] (mkSt (mkConfig [ex_docs]) [] ex_fs []))
  /\ is_file ex_fs ["src"; "report.txt"] = true
  /\ firstn 1 ["src"; "report.txt"] = ["src"]
  /\ 1 < 2
  /\ "Documents" = categorize_file (mkConfig [ex_docs]) ["src"; "report.txt"]
  /\ ("Documents" = "Uncategorized"
      \/ exists r, In r [ex_docs]
                   /\ check_rule_conditions ["src"; "report.txt"] r = true /\ "Documents" = rule_target r).
Proof.
  split; [vm_compute; left; reflexivity|].
  apply (generated_plan_categories ["src"] (mkSt (mkConfig [ex_docs]) [] ex_fs [])
           "Documents" [["src"; "report.txt"]] ["src"; "report.txt"]);
    [vm_compute; left; reflexivity | left; reflexivity].
Defined.

(** A ledger with a real destination: [/src/report.txt] goes back to
    [/out/report.txt], and the empty directory [/out/Empty] is removed. *)
Definition ex_rb_st : St :=
  mkSt (mkConfig []) [(["out"; "report.txt"], ["src"; "report.txt"])]
       (mkFS [(["src"; "report.txt"], "work report")] [["src"]; ["out"]; ["out"; "Empty"]]) [].

Lemma rollback_clears_ledger_witness :
  let s' := mkSt (mkConfig []) [] (mkFS [(["out"; "report.txt"], "work report")] [["src"]; ["out"]]) [] in
  rollback ["out"] ex_rb_st = Ret s' tt
  /\ previous_state s' = []
  /\ rollback ["out"] s' = Ret (mkSt (config s') [] (fs s') (stdout s' ++ ["No previous state to rollback."])) tt.
Proof.
  intros s'; assert (H : rollback ["out"] ex_rb_st = Ret s' tt) by (vm_compute; reflexivity).
  split; [exact H | exact (rollback_clears_ledger ["out"] ex_rb_st s' H)].
Defined.

(** ** Removal of empty category directories *)

Lemma children_In (f : FS) (e x : path) :
  In x (children f e) ->
  parent x = e /\ ((In x (fs_dirs f) /\ x <> e) \/ In x (map fst (fs_files f))).
Proof.
  unfold children; intros H; apply in_app_or in H as [H|H]; apply filter_In in H as [Hx H].
  - apply andb_prop in H as [H1 H2]; apply path_eqb_eq in H1.
    split; [exact H1|left; split; [exact Hx|]].
    intros ->; rewrite path_eqb_refl in H2; discriminate.
  - apply path_eqb_eq in H; split; [exact H|right; exact Hx].
Qed.

Lemma children_keep (f f' : FS) (e : path) :
  fs_files f' = fs_files f ->
  (forall x, In x (fs_dirs f) -> parent x = e -> In x (fs_dirs f')) ->
  children f e <> [] -> children f' e <> [].
Proof.
  intros Hf Hd Hc.
  destruct (children f e) as [|x r] eqn:E; [congruence|].
  assert (Hx : In x (children f e)) by (rewrite E; left; reflexivity).
  apply children_In in Hx as [Hp [[Hx Hne]|Hx]]; intros E'.
  - assert (In x (children f' e)); [|rewrite E' in *; contradiction].
    unfold children; apply in_or_app; left; apply filter_In; split; [apply Hd; assumption|].
    rewrite Hp, path_eqb_refl, path_eqb_neq by exact Hne; reflexivity.
  - assert (In x (children f' e)); [|rewrite E' in *; contradiction].
    unfold children; apply in_or_app; right; apply filter_In; rewrite Hf.
    split; [exact Hx | rewrite Hp; apply path_eqb_refl].
Qed.

Lemma cleanup_step (q : path) (s s' : St) :
  (s0 <- get ;;
   if is_dir (fs s0) q then
     match children (fs s0) q with
     | [] => rmdir q
     | _ => ret tt
     end
   else ret tt) s = Ret s' tt ->
  fs_files (fs s') = fs_files (fs s)
  /\ (forall x, In x (fs_dirs (fs s')) -> In x (fs_dirs (fs s)))
  /\ (forall x, In x (fs_dirs (fs s)) -> x <> q -> In x (fs_dirs (fs s')))
  /\ (is_dir (fs s') q = true -> children (fs s') q <> []).
Proof.
  unfold bind, get; intros H.
  destruct (is_dir (fs s) q) eqn:Hq; [|inversion H; subst; repeat split; auto; congruence].
  destruct (children (fs s) q) as [|c r] eqn:Hc;
    [|inversion H; subst; simpl; repeat split; auto; rewrite Hc; discriminate].
  unfold rmdir, bind, get in H; rewrite Hq, Hc in H; simpl in H.
  inversion H; subst; simpl; split; [reflexivity|split; [|split]].
  - intros x Hx; apply filter_In in Hx as [Hx _]; exact Hx.
  - intros x Hx Hne; apply filter_In; split; [exact Hx|].
    rewrite path_eqb_neq by exact Hne; reflexivity.
  - unfold is_dir; simpl; intros Hd; exfalso.
    apply existsb_exists in Hd as [x [Hx Heq]]; apply path_eqb_eq in Heq; subst x.
    apply filter_In in Hx as [_ Hx]; rewrite path_eqb_refl in Hx; discriminate.
Qed.

Lemma cleanup_loop (base : path) (entries : list path) (s s' : St) :
  (forall q, In q entries -> parent q = base /\ q <> base) ->
  for_each entries (fun category_dir =>
    s0 <- get ;;
    if is_dir (fs s0) category_dir then
      match children (fs s0) category_dir with
      | [] => rmdir category_dir
      | _ => ret tt
      end
    else ret tt) s = Ret s' tt ->
  fs_files (fs s') = fs_files (fs s)
  /\ (forall x, In x (fs_dirs (fs s')) -> In x (fs_dirs (fs s)))
  /\ (forall x, In x (fs_dirs (fs s)) -> ~ In x entries -> In x (fs_dirs (fs s')))
  /\ (forall e, In e entries -> is_dir (fs s') e = true -> children (fs s') e <> []).
Proof.
  revert s; induction entries as [|q rest IH]; intros s Hent H; simpl in H.
  - inversion H; subst; repeat split; auto; intros e [].
  - apply bind_inv in H as (s1 & [] & E & H).
    destruct (cleanup_step q s s1 E) as (F1 & D1 & K1 & C1).
    destruct (IH s1 (fun x Hx => Hent x (or_intror Hx)) H) as (F2 & D2 & K2 & C2).
    split; [congruence|split; [auto|split]].
    + intros x Hx Hn; apply K2; [apply K1; [exact Hx|]|].
      * intros ->; apply Hn; left; reflexivity.
      * intros Hin; apply Hn; right; exact Hin.
    + intros e [<-|He] Hd; [|apply C2; assumption].
      apply (children_keep (fs s1)); [exact F2| |].
      * intros x Hx Hp; apply K2; [exact Hx|]; intros Hin.
        destruct (Hent x (or_intror Hin)) as [Hpx _]; destruct (Hent q (or_introl eq_refl)) as [_ Hne].
        congruence.
      * apply C1; unfold is_dir in *; apply existsb_exists in Hd as [x [Hx Heq]].
        apply existsb_exists; exists x; split; [apply D2, Hx | exact Heq].
Qed.

Lemma parent_self (p : path) : p <> [] -> parent p <> p.
Proof.
  intros Hp E; unfold parent in E.
  pose proof (app_removelast_last "" Hp) as H.
  apply (f_equal (@length string)) in H; rewrite length_app, E in H; simpl in H; lia.
Qed.

(** After a successful [rollback] with a nonempty ledger, no directory
    directly inside [base_output_dir] is empty: every empty one has been
    removed, whether the reorganization created it or not. *)
Theorem rollback_removes_empty_dirs (base : path) (s s' : St) :
  base <> [] -> previous_state s <> [] ->
  rollback base s = Ret s' tt ->
  forall d, is_dir (fs s') d = true -> parent d = base -> d <> base -> children (fs s') d <> [].
Proof.
  intros Hb Hp H d Hd Hpd Hne.
  unfold rollback in H; apply bind_inv in H as (s0 & a & E & H).
  inversion E; subst s0 a; clear E.
  destruct (previous_state s) as [|kv prev] eqn:Ep; [congruence|].
  apply bind_inv in H as (s1 & [] & _ & H).
  apply bind_inv in H as (s2 & [] & E2 & H).
  apply bind_inv in H as (s3 & entries & E3 & H).
  unfold iterdir, bind, get in E3.
  destruct (is_dir (fs s2) base); [|discriminate].
  inversion E3; subst s3 entries; clear E3.
  assert (Hent : forall q, In q (children (fs s2) base) -> parent q = base /\ q <> base).
  { intros q Hq; apply children_In in Hq as [Hq' [[_ Hn]|_]]; split; try assumption.
    intros ->; apply (parent_self base Hb Hq'). }
  destruct (cleanup_loop base _ s2 s' Hent H) as (_ & D & _ & C).
  apply C; [|exact Hd].
  unfold children; apply in_or_app; left; apply filter_In; split.
  - unfold is_dir in Hd; apply existsb_exists in Hd as [x [Hx Heq]].
    apply path_eqb_eq in Heq; subst x; apply D, Hx.
  - rewrite Hpd, path_eqb_refl, path_eqb_neq by exact Hne; reflexivity.
Qed.

Lemma rollback_removes_empty_dirs_witness :
  let s' := mkSt (mkConfig []) [] (mkFS [(["out"; "report.txt"], "work report")] [["src"]; ["out"]]) [] in
  rollback ["out"] ex_rb_st = Ret s' tt
  /\ forall d, is_dir (fs s') d = true -> parent d = ["out"] -> d <> ["out"] -> children (fs s') d <> [].
Proof.
  intros s'; assert (H : rollback ["out"] ex_rb_st = Ret s' tt) by (vm_compute; reflexivity).
  split; [exact H|].
  exact (rollback_removes_empty_dirs ["out"] ex_rb_st s' ltac:(discriminate) ltac:(discriminate) H).
Defined.




(** A plan that files the directory [out/B] under category [A] and then
    creates category [B]: [shutil.move] carries the directory, with its
    file, to [out/A/B], and [rollback] leaves it there. *)
Definition ex_dir_fs : FS := mkFS [(["out"; "B"; "f.txt"], "data")] [["out"]; ["out"; "B"]].

Definition ex_dir_plan : Plan := [("A", [["out"; "B"]]); ("B", [])].

Definition ex_dir_st : St := mkSt (mkConfig []) [] ex_dir_fs [].

Definition ex_dir_applied : St :=
  mkSt (mkConfig []) [(["out"; "B"], ["out"; "B"])]
       (mkFS [(["out"; "A"; "B"; "f.txt"], "data")]
             [["out"]; ["out"; "A"]; ["out"; "A"; "B"]; ["out"; "B"]]) [].

Example apply_then_rollback_directory :
  apply_reorganization ex_dir_plan ["out"] ex_dir_st = Ret ex_dir_applied tt
  /\ rollback ["out"] ex_dir_applied
     = Ret (mkSt (mkConfig []) []
                 (mkFS [(["out"; "A"; "B"; "f.txt"], "data")]
                       [["out"]; ["out"; "A"]; ["out"; "A"; "B"]]) []) tt.
Proof. split; vm_compute; reflexivity. Qed.


(** ** Extension matching *)

Fixpoint has_dot (s : string) : bool :=
  match s with
  | EmptyString => false
  | String c s' => Ascii.eqb c "."%char || has_dot s'
  end.

Lemma str_length_app (s1 s2 : string) :
  String.length (s1 ++ s2)%string = String.length s1 + String.length s2.
Proof. induction s1 as [|c s1 IH]; simpl; auto. Qed.

Lemma rfind_dot_from_app (s1 s2 : string) (i : nat) (acc : option nat) :
  rfind_dot_from (s1 ++ s2)%string i acc
  = rfind_dot_from s2 (i + String.length s1) (rfind_dot_from s1 i acc).
Proof.
  revert i acc; induction s1 as [|c s1 IH]; intros i acc; simpl.
  - rewrite Nat.add_0_r; reflexivity.
  - rewrite IH, Nat.add_succ_r; reflexivity.
Qed.

Lemma rfind_dot_from_nodot (s : string) (i : nat) (acc : option nat) :
  has_dot s = false -> rfind_dot_from s i acc = acc.
Proof.
  revert i acc; induction s as [|c s IH]; intros i acc H; simpl in *; [reflexivity|].
  apply orb_false_elim in H as [Hc H]; rewrite Hc; apply IH, H.
Qed.

Lemma rfind_dot_last (b e : string) :
  has_dot e = false -> rfind_dot (b ++ String "." e)%string = Some (String.length b).
Proof.
  intros He; unfold rfind_dot; rewrite rfind_dot_from_app; simpl.
  apply rfind_dot_from_nodot, He.
Qed.

Lemma substring_app (b s : string) (m : nat) :
  substring (String.length b) m (b ++ s)%string = substring 0 m s.
Proof. induction b as [|c b IH]; simpl; [reflexivity|exact IH]. Qed.

Lemma substring_all (s : string) : substring 0 (String.length s) s = s.
Proof. induction s as [|c s IH]; simpl; [reflexivity|rewrite IH; reflexivity]. Qed.

(** For a file named [b.e] with a nonempty stem [b] and a nonempty,
    dot-free last extension [e], [_check_rule_conditions] compares [e]
    alone with the rule's extensions: [report.tar.gz] matches ["gz"], never
    ["tar.gz"], whatever the case of the letters. *)
Theorem check_rule_last_extension (p : path) (b e : string) (r : Rule) :
  name p = (b ++ String "." e)%string -> b <> "" -> e <> "" -> has_dot e = false ->
  drop1 (suffix p) = e
  /\ check_rule_conditions p r =
       match rule_extensions r with Some exts => existsb (String.eqb e) exts | None => true end.
Proof.
  intros Hn Hb He Hd.
  assert (Hs : drop1 (suffix p) = e).
  { unfold suffix; rewrite Hn, rfind_dot_last by exact Hd.
    rewrite str_length_app; simpl.
    destruct b as [|cb b']; [congruence|]; destruct e as [|ce e']; [congruence|].
    replace ((0 <? String.length (String cb b'))%nat
             && (String.length (String cb b') <?
                 String.length (String cb b') + S (String.length (String ce e')) - 1)%nat)
      with true by (symmetry; apply andb_true_intro; split; apply Nat.ltb_lt; simpl; lia).
    replace (String.length (String cb b') + S (String.length (String ce e')) - String.length (String cb b'))%nat
      with (S (String.length (String ce e'))) by lia.
    rewrite substring_app; unfold drop1; simpl.
    rewrite ?Nat.sub_0_r; simpl; rewrite !substring_all; reflexivity. }
  split; [exact Hs|].
  unfold check_rule_conditions; rewrite Hs.
  destruct (rule_extensions r); [destruct (existsb _ _)|]; reflexivity.
Qed.

Lemma check_rule_last_extension_witness :
  drop1 (suffix ["src"; "report.tar.gz"]) = "gz"
  /\ check_rule_conditions ["src"; "report.tar.gz"] ex_docs =
       match rule_extensions ex_docs with Some exts => existsb (String.eqb "gz") exts | None => true end.
Proof.
  apply (check_rule_last_extension ["src"; "report.tar.gz"] "report.tar" "gz" ex_docs);
    [reflexivity | discriminate | discriminate | reflexivity].
Defined.

(** Files whose name has no usable suffix (no dot, a single leading dot as
    in [.bashrc], or a trailing dot as in [notes.]) are compared as the
    empty extension: a rule with an extension list matches them only if
    that list contains [""]. *)
Theorem check_rule_no_suffix (p : path) (r : Rule) :
  (has_dot (name p) = false
   \/ (exists e, name p = String "." e /\ has_dot e = false)
   \/ (exists b, name p = (b ++ ".")%string)) ->
  drop1 (suffix p) = ""
  /\ check_rule_conditions p r =
       match rule_extensions r with Some exts => existsb (String.eqb "") exts | None => true end.
Proof.
  intros H.
  assert (Hs : suffix p = "").
  { unfold suffix; destruct H as [H|[(e & Hn & He)|(b & Hn)]].
    - unfold rfind_dot; rewrite rfind_dot_from_nodot by exact H; reflexivity.
    - rewrite Hn; unfold rfind_dot; simpl; rewrite rfind_dot_from_nodot by exact He; reflexivity.
    - rewrite Hn; replace (b ++ ".")%string with (b ++ String "." "")%string by reflexivity.
      rewrite rfind_dot_last by reflexivity; rewrite str_length_app; simpl.
      replace (String.length b <? String.length b + 1 - 1)%nat with false
        by (symmetry; apply Nat.ltb_ge; lia).
      rewrite andb_false_r; reflexivity. }
  assert (Hs' : drop1 (suffix p) = "") by (rewrite Hs; reflexivity).
  split; [exact Hs'|].
  unfold check_rule_conditions; rewrite Hs'.
  destruct (rule_extensions r); [destruct (existsb _ _)|]; reflexivity.
Qed.

Lemma check_rule_no_suffix_witness :
  drop1 (suffix ["home"; ".bashrc"]) = ""
  /\ check_rule_conditions ["home"; ".bashrc"] ex_docs =
       match rule_extensions ex_docs with Some exts => existsb (String.eqb "") exts | None => true end.
Proof.
  apply (check_rule_no_suffix ["home"; ".bashrc"] ex_docs).
  right; left; exists "bashrc"; split; reflexivity.
Defined.

(** ** The analyzer *)

Module AnalyzerMore.
Import Analyzer.

Lemma substring0_length (n : nat) (s : string) :
  String.length (substring 0 n s) = Nat.min n (String.length s).
Proof.
  revert n; induction s as [|c s IH]; intros [|n]; simpl; auto.
Qed.

Lemma substring0_prefix (n : nat) (s : string) : String.prefix (substring 0 n s) s = true.
Proof.
  revert n; induction s as [|c s IH]; intros [|n]; simpl; auto.
  destruct (Ascii.ascii_dec c c); [apply IH|congruence].
Qed.

Lemma dset_keys {V} (k : string) (v : V) (d : list (string * V)) :
  map fst (dset k v d) = if existsb (String.eqb k) (map fst d) then map fst d else map fst d ++ [k].
Proof.
  induction d as [|[k' v'] d IH]; simpl; [reflexivity|].
  rewrite String.eqb_sym; destruct (String.eqb k' k) eqn:E; simpl; [reflexivity|].
  rewrite IH; destruct (existsb _ _); reflexivity.
Qed.

Lemma dset_nodup_incl {V} (k : string) (v : V) (d : list (string * V)) (cats : list string) :
  NoDup (map fst d) -> incl (map fst d) cats -> In k cats ->
  NoDup (map fst (dset k v d)) /\ incl (map fst (dset k v d)) cats.
Proof.
  intros Hn Hi Hk; rewrite dset_keys.
  destruct (existsb (String.eqb k) (map fst d)) eqn:E; [split; assumption|].
  split.
  - apply NoDup_app; [exact Hn | constructor; [intros []|constructor] |].
    intros x Hx [<-|[]].
    assert (existsb (String.eqb k) (map fst d) = true)
      by (apply AnalyzerFacts.existsb_eqb_In; exact Hx).
    congruence.
  - intros x Hx; apply in_app_or in Hx as [Hx|[<-|[]]]; [apply Hi, Hx | exact Hk].
Qed.

Section Classify.
Context {Mo : Models}.

Lemma semantic_scores_fail (file_content : string) (cats : list string)
  (acc : list (string * score)) (c : string) :
  In c cats -> nlp_similarity file_content c = None ->
  semantic_scores file_content cats acc = None.
Proof.
  revert acc; induction cats as [|x cats IH]; intros acc Hin Hc; simpl; [destruct Hin|].
  destruct Hin as [->|Hin]; [rewrite Hc; reflexivity|].
  destruct (nlp_similarity file_content x); [apply IH; assumption | reflexivity].
Qed.

Lemma final_scores_keys (cats : list string) (classifications semantic : list (string * score))
  (thr : score) :
  NoDup (map fst (final_scores cats classifications semantic thr))
  /\ incl (map fst (final_scores cats classifications semantic thr)) cats.
Proof.
  unfold final_scores.
  assert (G : forall pre post acc, cats = pre ++ post ->
            NoDup (map fst acc) -> incl (map fst acc) cats ->
            NoDup (map fst (fold_left (fun fin category =>
              let zero_shot_score := dget_or category classifications zero_score in
              let semantic_score := dget_or category semantic zero_score in
              let final_score := combined_score zero_shot_score semantic_score in
              if fge final_score thr then dset category final_score fin else fin) post acc))
            /\ incl (map fst (fold_left (fun fin category =>
              let zero_shot_score := dget_or category classifications zero_score in
              let semantic_score := dget_or category semantic zero_score in
              let final_score := combined_score zero_shot_score semantic_score in
              if fge final_score thr then dset category final_score fin else fin) post acc)) cats).
  { intros pre post; revert pre; induction post as [|x post IH]; intros pre acc Heq Hn Hi;
      simpl; [split; assumption|].
    assert (Hx : In x cats) by (rewrite Heq; apply in_or_app; right; left; reflexivity).
    apply (IH (pre ++ [x])); [rewrite Heq, <- app_assoc; reflexivity| |];
      destruct (fge _ thr); try assumption;
      apply (dset_nodup_incl (V := score) x _ acc cats Hn Hi Hx). }
  apply (G [] cats []); [reflexivity | constructor | intros x []].
Qed.

(** [classify_file_purpose] returns a dict of distinct purpose categories,
    each one of the analyzer's [purpose_categories]; in particular an
    analyzer with no purpose category classifies every file under none. *)
Theorem classify_file_purpose_keys (a : Analyzer) (file_content : string) (thr : score) :
  NoDup (map fst (classify_file_purpose a file_content thr))
  /\ incl (map fst (classify_file_purpose a file_content thr)) (purpose_categories a)
  /\ (purpose_categories a = [] -> classify_file_purpose a file_content thr = []).
Proof.
  assert (H : NoDup (map fst (classify_file_purpose a file_content thr))
              /\ incl (map fst (classify_file_purpose a file_content thr)) (purpose_categories a)).
  { unfold classify_file_purpose.
    destruct (zero_shot file_content (purpose_categories a)) as [[labels scores]|];
      [|split; [constructor | intros x []]].
    destruct (semantic_scores file_content (purpose_categories a) []);
      [apply final_scores_keys | split; [constructor | intros x []]]. }
  split; [apply H|split; [apply H|]].
  intros He; destruct (classify_file_purpose a file_content thr) as [|[k v] r] eqn:E;
    [reflexivity|].
  exfalso; destruct H as [_ Hi]; rewrite He in Hi; apply (Hi k); left; reflexivity.
Qed.

(** When the zero-shot pipeline raises, or the similarity fails for any
    purpose category, the exception is caught and the file gets no purpose
    at all (the scores already computed are dropped). *)
Theorem classify_file_purpose_model_failure (a : Analyzer) (file_content : string) (thr : score) :
  zero_shot file_content (purpose_categories a) = None
  \/ (exists c, In c (purpose_categories a) /\ nlp_similarity file_content c = None) ->
  classify_file_purpose a file_content thr = [].
Proof.
  unfold classify_file_purpose; intros [Hz|(c & Hc & Hn)]; [rewrite Hz; reflexivity|].
  destruct (zero_shot file_content (purpose_categories a)) as [[labels scores]|]; [|reflexivity].
  rewrite (semantic_scores_fail _ _ _ c Hc Hn); reflexivity.
Qed.

(** [analyze_file]'s [content_preview] is the first [min 500 (len content)]
    characters of what was read; an unreadable file is still analysed, as
    the empty text, with an empty preview and the error printed. *)
Theorem analyze_file_preview (a : Analyzer) (w : World) (p : path) :
  (forall c, w_read w p = Some c ->
     String.length (an_content_preview (fst (analyze_file a w p))) = Nat.min 500 (String.length c)
     /\ String.prefix (an_content_preview (fst (analyze_file a w p))) c = true
     /\ an_purposes (fst (analyze_file a w p)) = classify_file_purpose a c default_threshold)
  /\ (w_read w p = None ->
      an_content_preview (fst (analyze_file a w p)) = ""
      /\ an_purposes (fst (analyze_file a w p)) = classify_file_purpose a "" default_threshold
      /\ In "Error reading file" (snd (analyze_file a w p))).
Proof.
  unfold analyze_file; destruct (extract_metadata w p) as [md log1].
  split.
  - intros c Hc; rewrite Hc; simpl.
    split; [apply substring0_length | split; [apply substring0_prefix | reflexivity]].
  - intros Hn; rewrite Hn; simpl.
    split; [reflexivity | split; [reflexivity | apply in_or_app; right; left; reflexivity]].
Qed.

(** The ["year"] of [extract_metadata] is [st_ctime_ns // 10**9 // 31536000 + 1970]:
    never before 1970 for a creation time after the epoch, and never
    decreasing as the creation time grows. *)
Theorem extract_metadata_year (w : World) (p q : path) (sp sq : Stats) :
  w_stat w p = Some sp -> w_stat w q = Some sq ->
  (0 <= st_ctime_ns sp <= st_ctime_ns sq)%Z ->
  exists mp mq, extract_metadata w p = (Some mp, []) /\ extract_metadata w q = (Some mq, [])
    /\ (1970 <= md_year mp <= md_year mq)%Z.
Proof.
  intros Hp Hq Hns; unfold extract_metadata; rewrite Hp, Hq.
  do 2 eexists; split; [reflexivity|split; [reflexivity|]]; simpl.
  assert (H1 : (0 <= st_ctime_ns sp / 10 ^ 9 / 31536000)%Z)
    by (apply Z.div_pos; [apply Z.div_pos|]; lia).
  assert (H2 : (st_ctime_ns sp / 10 ^ 9 / 31536000 <= st_ctime_ns sq / 10 ^ 9 / 31536000)%Z)
    by (apply Z.div_le_mono; [lia|]; apply Z.div_le_mono; lia).
  lia.
Qed.


Lemma file_analyzer_init_log (w : World) :
  count_occ string_dec (snd (file_analyzer_init w)) "Error analyzing file" = 0.
Proof.
  unfold file_analyzer_init, load_classification_config.
  destruct (w_spacy_installed w), (w_categories w) as [| |[]]; reflexivity.
Qed.

Lemma analyze_file_log (a : Analyzer) (w : World) (p : path) :
  count_occ string_dec (snd (analyze_file a w p)) "Error analyzing file" = 0.
Proof.
  unfold analyze_file, extract_metadata.
  destruct (w_stat w p); [destruct (w_stat w p)|]; destruct (w_read w p); reflexivity.
Qed.

Lemma process_loop_write_errors (a : Analyzer) (w : World) (d : path)
  (entries : list path) (acc : list Analysis) (log : list string) :
  count_occ string_dec (snd (process_loop a w (Some d) entries acc log)) "Error analyzing file"
  = count_occ string_dec log "Error analyzing file"
    + length (filter (fun p => negb (w_write_ok w (join d (stem p ++ "_analysis.json"))))
                     (filter (w_is_file w) entries)).
Proof.
  revert acc log; induction entries as [|p entries IH]; intros acc log; simpl; [lia|].
  destruct (w_is_file w p); simpl; [|apply IH].
  pose proof (analyze_file_log a w p) as Hl.
  destruct (analyze_file a w p) as [fa l]; simpl in Hl; rewrite IH.
  destruct (w_write_ok w (join d (stem p ++ "_analysis.json"))); simpl;
    rewrite !count_occ_app, Hl; simpl; lia.
Qed.

(** With an output directory, [process_files] prints ["Error analyzing ..."]
    exactly once per regular file whose result file cannot be written; the
    analysis of that file is kept in the results all the same. *)
Theorem process_files_write_errors (analyzer_of : CategoriesConfig -> Analyzer) (w : World)
  (directory d : path) :
  let a := analyzer_of (fst (load_classification_config (w_categories w))) in
  w_models_ok w = true -> w_mkdir_ok w d = true ->
  exists log,
    process_files analyzer_of w directory (Some d)
    = (Some (map (fun p => fst (analyze_file a w p)) (filter (w_is_file w) (w_rglob w directory))), log)
    /\ count_occ string_dec log "Error analyzing file"
       = length (filter (fun p => negb (w_write_ok w (join d (stem p ++ "_analysis.json"))))
                        (filter (w_is_file w) (w_rglob w directory))).
Proof.
  intros a Hm Hd.
  destruct (AnalyzerFacts.process_files_ok analyzer_of w directory (Some d) Hm Hd) as [l Hl].
  exists (snd (file_analyzer_init w) ++ l); split; [exact Hl|].
  assert (Hp : snd (process_files analyzer_of w directory (Some d))
               = snd (process_loop a w (Some d) (w_rglob w directory) [] (snd (file_analyzer_init w)))).
  { subst a; unfold process_files, file_analyzer_init.
    destruct (load_classification_config (w_categories w)) as [cfg log1].
    lazy beta iota zeta; rewrite Hm, Hd; cbn [fst snd].
    destruct (process_loop _ _ _ _ _ _); reflexivity. }
  pose proof (process_loop_write_errors a w d (w_rglob w directory) [] (snd (file_analyzer_init w))) as Hc.
  rewrite file_analyzer_init_log in Hc.
  rewrite Hl in Hp; cbn [snd] in Hp; rewrite Hp; exact Hc.
Qed.

Lemma process_files_log_prefix (analyzer_of : CategoriesConfig -> Analyzer) (w : World)
  (directory : path) (output_dir : option path) :
  exists l, snd (process_files analyzer_of w directory output_dir) = snd (file_analyzer_init w) ++ l.
Proof.
  destruct (w_models_ok w) eqn:Hm.
  - assert (Hok : forall o, match o with Some d => w_mkdir_ok w d = true | None => True end ->
                  exists l, snd (process_files analyzer_of w directory o) = snd (file_analyzer_init w) ++ l).
    { intros o Ho; destruct (AnalyzerFacts.process_files_ok analyzer_of w directory o Hm Ho) as [l Hl].
      exists l; rewrite Hl; reflexivity. }
    destruct output_dir as [d|]; [|apply Hok, I].
    destruct (w_mkdir_ok w d) eqn:Hd; [apply Hok, Hd|].
    exists []; rewrite AnalyzerFacts.process_files_mkdir_fail by assumption; symmetry; apply app_nil_r.
  - exists []; rewrite AnalyzerFacts.process_files_models_fail by exact Hm; symmetry; apply app_nil_r.
Qed.

Lemma file_analyzer_init_bad_categories (w : World) :
  (forall fields, w_categories w <> Parsed (JObj fields)) ->
  exists r, snd (file_analyzer_init w) = "Error loading categories" :: r.
Proof.
  intros Hc; unfold file_analyzer_init, load_classification_config.
  destruct (w_categories w) as [| |[]]; try (exfalso; eapply Hc; reflexivity); eexists; reflexivity.
Qed.

(** [main]: exit status 1 with the error line for a path that is not a
    directory; status 1 (uncaught exception) when [FileAnalyzer()] cannot
    load its models or the output directory cannot be created, after only
    the lines [FileAnalyzer()] printed (["Error loading categories: ..."],
    ["Downloading spaCy model..."]); otherwise status 0, those lines first
    and the summary line last, counting every regular file listed under the
    directory.  When the categories file is missing, is not valid JSON or
    does not hold a dict, the first line printed, whatever the outcome, is
    the error of [_load_classification_config]. *)
Theorem main_exit_status (analyzer_of : CategoriesConfig -> Analyzer) (w : World)
  (is_dir : path -> bool) (directory : path) (output : option path) :
  (is_dir directory = false ->
   main analyzer_of w is_dir directory output
   = (1%Z, [("Error: " ++ path_str directory ++ " is not a valid directory.")%string]))
  /\ (is_dir directory = true -> w_models_ok w = false ->
      main analyzer_of w is_dir directory output = (1%Z, snd (file_analyzer_init w)))
  /\ (forall d, is_dir directory = true -> w_models_ok w = true -> output = Some d ->
       w_mkdir_ok w d = false ->
       main analyzer_of w is_dir directory output = (1%Z, snd (file_analyzer_init w)))
  /\ (is_dir directory = true -> w_models_ok w = true ->
      match output with Some d => w_mkdir_ok w d = true | None => True end ->
      exists log, main analyzer_of w is_dir directory output
        = (0%Z, snd (file_analyzer_init w) ++ log
                ++ [("Analyzed " ++ nat_to_string (length (filter (w_is_file w) (w_rglob w directory)))
                     ++ " files.")%string]))
  /\ (is_dir directory = true -> (forall fields, w_categories w <> Parsed (JObj fields)) ->
      exists l, snd (main analyzer_of w is_dir directory output) = "Error loading categories" :: l).
Proof.
  unfold main; split; [intros H; rewrite H; reflexivity|split; [|split; [|split]]].
  - intros H Hm; rewrite H; simpl; rewrite AnalyzerFacts.process_files_models_fail by exact Hm;
      reflexivity.
  - intros d H Hm -> Hd; rewrite H; simpl;
      rewrite AnalyzerFacts.process_files_mkdir_fail by assumption; reflexivity.
  - intros H Hm Ho; rewrite H; simpl.
    destruct (AnalyzerFacts.process_files_ok analyzer_of w directory output Hm Ho) as [l Hl].
    exists l; rewrite Hl, length_map, <- app_assoc; reflexivity.
  - intros H Hc; rewrite H; simpl.
    destruct (file_analyzer_init_bad_categories w Hc) as [r Hr].
    destruct (process_files_log_prefix analyzer_of w directory output) as [l Hl].
    destruct (process_files analyzer_of w directory output) as [[results|] log]; cbn [snd] in Hl |- *;
      rewrite Hl, Hr; eexists; reflexivity.
Qed.

End Classify.
End AnalyzerMore.

(** ** Concrete runs for the further properties *)

Lemma apply_reorganization_ledger_witness :
  let s' := mkSt (mkConfig []) [(["src"; "report.txt"], ["src"; "report.txt"])]
              (mkFS [(["out"; "Work"; "report.txt"], "work report")]
                    [["src"]; ["out"]; ["out"; "Work"]]) [] in
  apply_reorganization ex_plan ["out"] ex_st = Ret s' tt
  /\ previous_state s' = ledger_of_plan ex_plan
  /\ (forall k v, In (k, v) (previous_state s') -> k = v /\ In k (concat (map snd ex_plan)))
  /\ (forall p, In p (concat (map snd ex_plan)) -> assoc_get p (previous_state s') = Some p).
Proof.
  intros s'; assert (H : apply_reorganization ex_plan ["out"] ex_st = Ret s' tt)
    by (vm_compute; reflexivity).
  split; [exact H | exact (apply_reorganization_ledger ex_plan ["out"] ex_st s' H)].
Defined.

(** The similarity model fails on ["Leisure"]. *)
Definition ex_failing_models : Analyzer.Models := {|
  Analyzer.score := float;
  Analyzer.fmul := PrimFloat.mul;
  Analyzer.fadd := PrimFloat.add;
  Analyzer.fge := fun x y => PrimFloat.leb y x;
  Analyzer.w_zero_shot := 0.7%float;
  Analyzer.w_semantic := 0.3%float;
  Analyzer.zero_score := 0%float;
  Analyzer.default_threshold := 0.5%float;
  Analyzer.zero_shot := fun _ cats => Some (cats, map (fun _ => 0.9%float) cats);
  Analyzer.nlp_similarity := fun _ c => if String.eqb c "Leisure" then None else Some 0.9%float
|}.

Lemma classify_file_purpose_model_failure_witness :
  @Analyzer.classify_file_purpose ex_failing_models ex_analyzer "text" 0.5%float = [].
Proof.
  apply (@AnalyzerMore.classify_file_purpose_model_failure ex_failing_models ex_analyzer "text" 0.5%float).
  right; exists "Leisure"; split; [right; left; reflexivity | reflexivity].
Defined.

Lemma extract_metadata_year_witness :
  exists mp mq,
    Analyzer.extract_metadata ex_world ["d"; "y.txt"] = (Some mp, [])
    /\ Analyzer.extract_metadata ex_world ["d"; "z.txt"] = (Some mq, [])
    /\ (1970 <= Analyzer.md_year mp <= Analyzer.md_year mq)%Z.
Proof.
  apply (AnalyzerMore.extract_metadata_year ex_world ["d"; "y.txt"] ["d"; "z.txt"]
           (Analyzer.mkStats 10 1.0%float 1.0%float 1000000000)
           (Analyzer.mkStats 10 1.0%float 1.0%float 1000000000));
    [reflexivity | reflexivity | simpl; lia].
Defined.

(** [ex_world] where the result file of [/d/x.txt] cannot be written. *)
Definition ex_write_world : Analyzer.World := {|
  Analyzer.w_categories := Analyzer.w_categories ex_world;
  Analyzer.w_spacy_installed := Analyzer.w_spacy_installed ex_world;
  Analyzer.w_models_ok := Analyzer.w_models_ok ex_world;
  Analyzer.w_stat := Analyzer.w_stat ex_world;
  Analyzer.w_read := Analyzer.w_read ex_world;
  Analyzer.w_rglob := Analyzer.w_rglob ex_world;
  Analyzer.w_is_file := Analyzer.w_is_file ex_world;
  Analyzer.w_mkdir_ok := fun _ => true;
  Analyzer.w_write_ok := fun p => negb (path_eqb p ["out"; "x_analysis.json"])
|}.

Lemma process_files_write_errors_witness :
  exists log,
    @Analyzer.process_files ex_models ex_analyzer_of ex_write_world ["d"] (Some ["out"])
    = (Some (map (fun p => fst (@Analyzer.analyze_file ex_models ex_analyzer ex_write_world p))
              (filter (Analyzer.w_is_file ex_write_world) (Analyzer.w_rglob ex_write_world ["d"]))), log)
    /\ count_occ string_dec log "Error analyzing file"
       = length (filter (fun p => negb (Analyzer.w_write_ok ex_write_world
                                         (join ["out"] (Analyzer.stem p ++ "_analysis.json"))))
                        (filter (Analyzer.w_is_file ex_write_world) (Analyzer.w_rglob ex_write_world ["d"]))).
Proof.
  apply (@AnalyzerMore.process_files_write_errors ex_models ex_analyzer_of ex_write_world ["d"] ["out"]);
    reflexivity.
Defined.

(** [ex_world] with no categories file, no installed spaCy model and a
    failing model download. *)
Definition ex_broken_world : Analyzer.World := {|
  Analyzer.w_categories := NoFile;
  Analyzer.w_spacy_installed := false;
  Analyzer.w_models_ok := false;
  Analyzer.w_stat := Analyzer.w_stat ex_world;
  Analyzer.w_read := Analyzer.w_read ex_world;
  Analyzer.w_rglob := Analyzer.w_rglob ex_world;
  Analyzer.w_is_file := Analyzer.w_is_file ex_world;
  Analyzer.w_mkdir_ok := Analyzer.w_mkdir_ok ex_world;
  Analyzer.w_write_ok := Analyzer.w_write_ok ex_world
|}.

Example main_ex_world :
  @Analyzer.main ex_models ex_analyzer_of ex_world (fun _ => true) ["d"] None
  = (0%Z, ["Error extracting metadata"; "Analyzed 2 files."]).
Proof. vm_compute; reflexivity. Qed.

Example main_ex_broken_world :
  @Analyzer.main ex_models ex_analyzer_of ex_broken_world (fun _ => true) ["d"] None
  = (1%Z, ["Error loading categories"; "Downloading spaCy model..."]).
Proof. vm_compute; reflexivity. Qed.

(** ** Previewing a plan *)

Lemma for_each_print_files (l : list path) (s : St) :
  exists out,
    for_each l (fun file_path => print ("  - " ++ path_str file_path)%string) s
    = Ret (mkSt (config s) (previous_state s) (fs s) (stdout s ++ out)) tt
    /\ length out = length l.
Proof.
  revert s; induction l as [|p l IH]; intros s; cbn [for_each].
  - exists []; rewrite app_nil_r; destruct s; split; reflexivity.
  - destruct (IH (mkSt (config s) (previous_state s) (fs s) (stdout s ++ [("  - " ++ path_str p)%string])))
      as [out [H Hl]].
    exists (("  - " ++ path_str p)%string :: out).
    split; [|simpl; lia].
    eapply bind_Ret_then; [reflexivity|]; cbv beta; rewrite H; simpl; rewrite <- app_assoc; reflexivity.
Qed.

Lemma preview_changes_run (plan : Plan) (s : St) :
  exists out,
    preview_changes plan s = Ret (mkSt (config s) (previous_state s) (fs s) (stdout s ++ out)) tt
    /\ length out = 1 + length plan + length (concat (map snd plan)).
Proof.
  assert (G : forall s, exists out,
    for_each plan (fun kv =>
      print (newline ++ "Category: " ++ fst kv)%string ;;;
      for_each (snd kv) (fun file_path => print ("  - " ++ path_str file_path)%string)) s
    = Ret (mkSt (config s) (previous_state s) (fs s) (stdout s ++ out)) tt
    /\ length out = length plan + length (concat (map snd plan))).
  { induction plan as [|[c l] plan IH]; intros s0; cbn [for_each fst snd].
    - exists []; rewrite app_nil_r; destruct s0; split; reflexivity.
    - set (s1 := mkSt (config s0) (previous_state s0) (fs s0)
                   (stdout s0 ++ [(newline ++ "Category: " ++ c)%string])).
      destruct (for_each_print_files l s1) as [o1 [H1 L1]].
      destruct (IH (mkSt (config s1) (previous_state s1) (fs s1) (stdout s1 ++ o1))) as [o2 [H2 L2]].
      exists ((newline ++ "Category: " ++ c)%string :: o1 ++ o2); split.
      + eapply bind_Ret_then.
        * eapply bind_Ret_then; [reflexivity|]; cbv beta; fold s1; exact H1.
        * cbv beta; rewrite H2; simpl; rewrite <- !app_assoc; reflexivity.
      + simpl; rewrite length_app, length_app, L1, L2; lia. }
  set (s1 := mkSt (config s) (previous_state s) (fs s) (stdout s ++ ["Proposed Folder Reorganization:"])).
  destruct (G s1) as [o [H L]].
  exists ("Proposed Folder Reorganization:" :: o); split.
  - unfold preview_changes; eapply bind_Ret_then; [reflexivity|]; cbv beta; fold s1; rewrite H; simpl.
    rewrite <- app_assoc; reflexivity.
  - simpl; lia.
Qed.

(** Previewing the generated plan changes neither the file system nor the
    ledger, and prints one header line, one line per category and one line
    per regular file found under the source directory. *)
Theorem preview_generated_plan (source_directory : path) (s : St) :
  exists out,
    (plan <- generate_folder_hierarchy source_directory ;; preview_changes plan) s
    = Ret (mkSt (config s) (previous_state s) (fs s) (stdout s ++ out)) tt
    /\ length out = 1 + length (plan_of source_directory s)
                      + length (filter (is_file (fs s)) (rglob (fs s) source_directory)).
Proof.
  destruct (preview_changes_run (plan_of source_directory s) s) as [out [H L]].
  exists out; split.
  - unfold bind at 1; unfold plan_of in H; simpl in H |- *; exact H.
  - rewrite L; unfold plan_of; simpl; unfold group_files.
    rewrite (Permutation_length (fold_step_files _ _ _ [])); reflexivity.
Qed.
